(** * The administration console: dialog view, chat page and employee editor

    A shallow embedding of the view logic of
    [src/dialog.tsx] (component [Dialog]),
    [src/dialogPage.tsx] (component [DialogPage]),
    [src/src/App.tsx] (the route table) and
    [src/src/employee/employeeEdit.tsx] (component [EmployeeEdit]).

    Conventions.
    - A JavaScript string is the list of its UTF-16 code units.
    - An [async] function is a computation over the component's store that
      also records, in program order, every observable operation it performs
      (state setter calls, requests issued, console output, timers).  The
      outcome of each awaited promise is an argument of the function.
    - State variables read inside a handler are read from the render the
      handler was created in (its closure); refs are read from the live store. *)

From Stdlib Require Import ZArith NArith List String Ascii Sorted Permutation Lia.
From stdpp Require Import base numbers option list gmap sorting.
Import ListNotations.

(** ** JavaScript values *)

Module JS.

Abbreviation jsstring := (list N).

(** A literal of the source that only holds ASCII characters. *)
Definition str (s : string) : jsstring :=
  N_of_ascii <$> list_ascii_of_string s.
Arguments str : simpl never.

(** [ToBoolean] on strings: only the empty string is falsy. *)
Definition truthy (s : jsstring) : bool :=
  match s with [] => false | _ :: _ => true end.

(** [a || b] on strings. *)
Definition or_else (a b : jsstring) : jsstring :=
  if truthy a then a else b.

(** [a || b] where [a] may be [null] or [undefined]. *)
Definition opt_or_else (a : option jsstring) (b : jsstring) : jsstring :=
  match a with Some s => or_else s b | None => b end.

(** ECMAScript WhiteSpace and LineTerminator code points, the characters that
    [String.prototype.trim] strips. *)
Definition isWhiteSpace (c : N) : bool :=
  ((c =? 0x0009) || (c =? 0x000A) || (c =? 0x000B) || (c =? 0x000C) ||
   (c =? 0x000D) || (c =? 0x0020) || (c =? 0x00A0) || (c =? 0x1680) ||
   ((0x2000 <=? c) && (c <=? 0x200A)) ||
   (c =? 0x2028) || (c =? 0x2029) || (c =? 0x202F) || (c =? 0x205F) ||
   (c =? 0x3000) || (c =? 0xFEFF))%N.

Fixpoint trimStart (s : jsstring) : jsstring :=
  match s with
  | c :: s' => if isWhiteSpace c then trimStart s' else s
  | [] => []
  end.

Definition trimEnd (s : jsstring) : jsstring := rev (trimStart (rev s)).

Definition trim (s : jsstring) : jsstring := trimEnd (trimStart s).

(** [s.replace(/@/g, '')]: every occurrence of the code unit is dropped. *)
Definition remove_all (c : N) (s : jsstring) : jsstring :=
  filter (λ d, d ≠ c) s.

(** [Array.prototype.includes] on an array of strings. *)
Definition includes (l : list jsstring) (x : jsstring) : bool :=
  bool_decide (x ∈ l).

(** [Array.prototype.indexOf]: the first index holding [x], or [-1]. *)
Fixpoint indexOf_from (l : list jsstring) (x : jsstring) (i : Z) : Z :=
  match l with
  | [] => (-1)%Z
  | y :: l' => if decide (y = x) then i else indexOf_from l' x (i + 1)%Z
  end.

Definition indexOf (l : list jsstring) (x : jsstring) : Z := indexOf_from l x 0%Z.

(** [l.splice(index, 1)] for a non-negative index: the element at that index
    is removed (nothing happens past the end). *)
Definition splice1 (l : list jsstring) (index : Z) : list jsstring :=
  delete (Z.to_nat index) l.

(** A time value, the result of [Date.prototype.getTime]: an integral number
    of milliseconds, or [NaN] ([None]) for an invalid date. *)
Definition timevalue := option Z.

(** [x - y] on time values; [NaN] is absorbing.  The difference of two time
    values is computed here exactly; the double the engine computes has the
    same sign, which is all that [Array.prototype.sort] looks at. *)
Definition minus (x y : timevalue) : option Z :=
  match x, y with
  | Some a, Some b => Some (a - b)%Z
  | _, _ => None
  end.

(** The abstract operation SortCompare for a user comparator: a [NaN] result
    counts as [+0]. *)
Definition SortCompare {A} (comparefn : A → A → option Z) (x y : A) : Z :=
  match comparefn x y with Some v => v | None => 0%Z end.

(** [Array.prototype.sort(comparefn)].  The specification fixes the result
    for a consistent comparator (a stable sorted permutation) and leaves the
    algorithm open; the model is the stable insertion sort. *)
Fixpoint sort_insert {A} (comparefn : A → A → option Z) (x : A) (l : list A) : list A :=
  match l with
  | [] => [x]
  | y :: l' =>
      if (SortCompare comparefn x y <=? 0)%Z then x :: l
      else y :: sort_insert comparefn x l'
  end.

Definition sort {A} (comparefn : A → A → option Z) (l : list A) : list A :=
  foldr (sort_insert comparefn) [] l.

(** The outcome of an awaited promise. *)
Definition error := jsstring.

Inductive promise (A : Type) : Type :=
| Fulfilled (a : A)
| Rejected (e : error).
Arguments Fulfilled {A} a.
Arguments Rejected {A} e.

(** [Promise.all([p1, p2])]. *)
Definition Promise_all2 {A B} (p1 : promise A) (p2 : promise B) : promise (A * B) :=
  match p1, p2 with
  | Fulfilled a, Fulfilled b => Fulfilled (a, b)
  | Rejected e, _ => Rejected e
  | _, Rejected e => Rejected e
  end.

(** What the host provides: [new Date(s).getTime()] and [JSON.parse].  Date
    parsing is implementation-defined outside the ISO format, so it is left
    to the host.  [JSON_parse] is the parse of the stored AI-reply list, an
    array of room ids; [None] stands for a value on which the parse, or the
    [includes] call on its result, throws. *)
Class Host := {
  Date_getTime : jsstring → timevalue;
  JSON_parse : jsstring → option (list jsstring)
}.

End JS.
Import JS.

(** ** Records of the two backends (modules [api/airflow] and [api/mysql]) *)

Module WxAccount.
Record t := mk { wxid : jsstring; name : jsstring; source_ip : jsstring }.
#[global] Instance WxAccount_eq_dec : EqDecision t.
Proof. solve_decision. Defined.
End WxAccount.

Module RoomListMessage.
Record t := mk {
  room_id : jsstring;
  room_name : option jsstring;
  sender_name : option jsstring;
  msg_datetime : jsstring;
  is_group : bool
}.
#[global] Instance RoomListMessage_eq_dec : EqDecision t.
Proof. solve_decision. Defined.
End RoomListMessage.

Module ChatMessage.
Record t := mk {
  msg_id : jsstring;
  content : option jsstring;
  msg_datetime : jsstring;
  sender_id : jsstring;
  sender_name : option jsstring;
  msg_type : option Z
}.
#[global] Instance ChatMessage_eq_dec : EqDecision t.
Proof. solve_decision. Defined.
End ChatMessage.

(** The body of the manual-send request. *)
Module SendRequest.
Record conf := mkConf {
  content : jsstring;
  source_ip : jsstring;
  room_id : jsstring;
  sender : jsstring;
  msg_type : Z;
  is_self : bool;
  is_group : bool
}.
Record t := mk {
  conf_ : conf;
  dag_run_id : jsstring;
  data_interval_end : jsstring;
  data_interval_start : jsstring;
  logical_date : jsstring;
  note : jsstring
}.
#[global] Instance SendRequest_conf_eq_dec : EqDecision conf.
Proof. solve_decision. Defined.
#[global] Instance SendRequest_eq_dec : EqDecision t.
Proof. solve_decision. Defined.
End SendRequest.

(** Every HTTP call the four source files make. *)
Inductive request : Type :=
| getWxAccountListApi
| getUserMsgCountApi (name : jsstring)
| getWxAccountPromptApi (wxid name : jsstring)
| getAIReplyListApi (name wxid : jsstring)
| postAIReplyListApi (name wxid : jsstring) (rooms : list jsstring)
| sendChatMessageApi (body : SendRequest.t)
| getRoomListMessagesApi (wx_user_id : jsstring)
| getRoomMpListMessagesApi (wx_user_id : jsstring)
| getChatMessagesApi (wx_user_id room_id : jsstring)
| getChatMpMessagesApi (wx_user_id room_id : jsstring).

#[global] Instance request_eq_dec : EqDecision request.
Proof. solve_decision. Defined.

(** ** Asynchronous functions over a component store *)

Module Async.

(** What an observer of a component sees it do.  [U] is the type of setter
    calls of the component, [K] the type of the closures it hands to timers
    or starts without awaiting. *)
Inductive event (U K : Type) : Type :=
| Fetch (r : request)
| Call (u : U)
| ConsoleError (label : jsstring) (e : error)
| ConsoleLog (label : jsstring)
| SetTimeout (k : K) (ms : Z)
| SetInterval (k : K) (ms : Z)
| ClearInterval (k : K)
| Invoke (k : K).
Arguments Fetch {U K} r.
Arguments Call {U K} u.
Arguments ConsoleError {U K} label e.
Arguments ConsoleLog {U K} label.
Arguments SetTimeout {U K} k ms.
Arguments SetInterval {U K} k ms.
Arguments ClearInterval {U K} k.
Arguments Invoke {U K} k.

Inductive completion (A : Type) : Type :=
| Normal (a : A)
| Thrown (e : error).
Arguments Normal {A} a.
Arguments Thrown {A} e.

(** How a setter call changes the store. *)
Class Setter (U S : Type) := apply : U → S → S.

Definition async (S U K A : Type) : Type :=
  S → completion A * S * list (event U K).

Section monad.
Context {S U K : Type} `{!Setter U S}.

Definition ret {A} (a : A) : async S U K A := λ s, (Normal a, s, []).

Definition bind {A B} (c : async S U K A) (f : A → async S U K B) : async S U K B :=
  λ s,
    match c s with
    | (Normal a, s1, t1) => let '(r, s2, t2) := f a s1 in (r, s2, t1 ++ t2)
    | (Thrown e, s1, t1) => (Thrown e, s1, t1)
    end.

Definition throw {A} (e : error) : async S U K A := λ s, (Thrown e, s, []).

(** [try { c } catch (e) { h e }] *)
Definition try_catch {A} (c : async S U K A) (h : error → async S U K A) : async S U K A :=
  λ s,
    match c s with
    | (Thrown e, s1, t1) => let '(r, s2, t2) := h e s1 in (r, s2, t1 ++ t2)
    | done => done
    end.

(** [try { c } finally { f }] *)
Definition try_finally {A} (c : async S U K A) (f : async S U K unit) : async S U K A :=
  λ s,
    let '(r, s1, t1) := c s in
    match f s1 with
    | (Normal _, s2, t2) => (r, s2, t1 ++ t2)
    | (Thrown e, s2, t2) => (Thrown e, s2, t1 ++ t2)
    end.

Definition emit (ev : event U K) : async S U K unit := λ s, (Normal tt, s, [ev]).

(** Read a ref of the live store. *)
Definition current {A} (f : S → A) : async S U K A := λ s, (Normal (f s), s, []).

(** Call a setter. *)
Definition set (u : U) : async S U K unit := λ s, (Normal tt, apply u s, [Call u]).

(** Issue a request; the promise it returns settles as the caller says. *)
Definition fetch {A} (r : request) (p : promise A) : async S U K (promise A) :=
  λ s, (Normal p, s, [Fetch r]).

Definition await {A} (p : promise A) : async S U K A :=
  match p with
  | Fulfilled a => ret a
  | Rejected e => throw e
  end.

Definition store_after {A} (c : async S U K A) (s : S) : S := (c s).1.2.
Definition trace_of {A} (c : async S U K A) (s : S) : list (event U K) := (c s).2.
Definition result_of {A} (c : async S U K A) (s : S) : completion A := (c s).1.1.

End monad.

#[global] Instance async_ret {S U K} : MRet (async S U K) := λ A, ret.
#[global] Instance async_bind {S U K} : MBind (async S U K) := λ A B f c, bind c f.

(** The requests a trace issues, the timers it arms, in order. *)
Definition fetches {U K} (t : list (event U K)) : list request :=
  omap (λ ev, match ev with Fetch r => Some r | _ => None end) t.


Definition errors_logged {U K} (t : list (event U K)) : list jsstring :=
  omap (λ ev, match ev with ConsoleError l _ => Some l | _ => None end) t.

End Async.
Import Async.

(** ** The chat page: [DialogPage] in [src/dialogPage.tsx] *)

Module DialogPage.

Module Message.
Record t := mk {
  id : jsstring;
  content : jsstring;
  timestamp : timevalue;
  isUser : bool;
  senderName : jsstring;
  msgType : option Z
}.
#[global] Instance Message_eq_dec : EqDecision t.
Proof. solve_decision. Defined.
End Message.

Record props := mkProps {
  conversation : option RoomListMessage.t;
  selectedAccount : option WxAccount.t
}.

(** The [useState] cells and the ref of the component. *)
Record state := mkState {
  messages : list Message.t;
  isLoading : bool;
  isFetchingHistory : bool;
  newMessage : jsstring;
  isAIEnabled : bool;
  isSending : bool;
  enabledRoomsRef : list jsstring
}.

Definition initial : state :=
  {| messages := []; isLoading := false; isFetchingHistory := false;
     newMessage := []; isAIEnabled := true; isSending := false;
     enabledRoomsRef := [] |}.

(** The setter calls; [enabledRoomsRef_current] is the assignment to the ref. *)
Inductive update : Type :=
| setMessages (l : list Message.t)
| setIsLoading (b : bool)
| setIsFetchingHistory (b : bool)
| setNewMessage (s : jsstring)
| setIsAIEnabled (b : bool)
| setIsSending (b : bool)
| enabledRoomsRef_current (l : list jsstring).

#[global] Instance update_setter : Setter update state := λ u s,
  match u with
  | setMessages l =>
      mkState l (isLoading s) (isFetchingHistory s) (newMessage s) (isAIEnabled s) (isSending s) (enabledRoomsRef s)
  | setIsLoading b =>
      mkState (messages s) b (isFetchingHistory s) (newMessage s) (isAIEnabled s) (isSending s) (enabledRoomsRef s)
  | setIsFetchingHistory b =>
      mkState (messages s) (isLoading s) b (newMessage s) (isAIEnabled s) (isSending s) (enabledRoomsRef s)
  | setNewMessage m =>
      mkState (messages s) (isLoading s) (isFetchingHistory s) m (isAIEnabled s) (isSending s) (enabledRoomsRef s)
  | setIsAIEnabled b =>
      mkState (messages s) (isLoading s) (isFetchingHistory s) (newMessage s) b (isSending s) (enabledRoomsRef s)
  | setIsSending b =>
      mkState (messages s) (isLoading s) (isFetchingHistory s) (newMessage s) (isAIEnabled s) b (enabledRoomsRef s)
  | enabledRoomsRef_current l =>
      mkState (messages s) (isLoading s) (isFetchingHistory s) (newMessage s) (isAIEnabled s) (isSending s) l
  end.

(** The closures the component schedules or starts: the history refresh armed
    after a send, and [loadMessages] started by the conversation effect.  Both
    close over the props of their render. *)
Inductive closure : Type :=
| refreshMessages_fn (p : props)
| loadMessages_fn (p : props).

Abbreviation task := (async state update closure).

(** [selectedAccount?.wxid || ''] and [selectedAccount?.name || ''] *)
Definition wxid_or (p : props) (d : jsstring) : jsstring :=
  opt_or_else (WxAccount.wxid <$> selectedAccount p) d.
Definition name_or (p : props) (d : jsstring) : jsstring :=
  opt_or_else (WxAccount.name <$> selectedAccount p) d.

(** [conversation?.room_id || ''] *)
Definition room_id_or (p : props) (d : jsstring) : jsstring :=
  opt_or_else (RoomListMessage.room_id <$> conversation p) d.

Section with_host.
Context `{Host}.

(** The comparator of both history merges: ascending time. *)
Definition oldest_first (a b : ChatMessage.t) : option Z :=
  minus (Date_getTime (ChatMessage.msg_datetime a)) (Date_getTime (ChatMessage.msg_datetime b)).

(** The display record built for each chat record. *)
Definition transform (p : props) (msg : ChatMessage.t) : Message.t :=
  {| Message.id := ChatMessage.msg_id msg;
     Message.content := opt_or_else (ChatMessage.content msg) [];
     Message.timestamp := Date_getTime (ChatMessage.msg_datetime msg);
     Message.isUser :=
       match selectedAccount p with
       | Some acc => bool_decide (ChatMessage.sender_id msg = WxAccount.wxid acc)
       | None => false
       end;
     Message.senderName := opt_or_else (ChatMessage.sender_name msg) (ChatMessage.sender_id msg);
     Message.msgType := ChatMessage.msg_type msg |}.

(** Lines 70-94 and 135-159: both requests are issued, both awaited, the
    records are concatenated, sorted and shaped, and the result is stored. *)
Definition fetch_history (p : props) (r1 r2 : promise (list ChatMessage.t)) : task unit :=
  p1 ← fetch (getChatMessagesApi (wxid_or p []) (room_id_or p [])) r1;
  p2 ← fetch (getChatMpMessagesApi (wxid_or p []) (room_id_or p [])) r2;
  '(records1, records2) ← await (Promise_all2 p1 p2);
  let allMessages := sort oldest_first (records1 ++ records2) in
  let transformedMessages := transform p <$> allMessages in
  set (setMessages transformedMessages).

Definition loadMessages (p : props) (aiResponse : promise jsstring)
    (r1 r2 : promise (list ChatMessage.t)) : task unit :=
  match conversation p with
  | None => mret tt
  | Some conv =>
      set (setIsFetchingHistory true);;
      try_finally
        (try_catch
           (aiPromise ← fetch (getAIReplyListApi (name_or p []) (wxid_or p [])) aiResponse;
            value ← await aiPromise;
            try_catch
              (match JSON_parse value with
               | Some enabledRooms =>
                   set (enabledRoomsRef_current enabledRooms);;
                   set (setIsAIEnabled (includes enabledRooms (RoomListMessage.room_id conv)))
               | None => throw (str "SyntaxError")
               end)
              (λ e,
                 emit (ConsoleError (str "Error parsing AI enabled rooms:") e);;
                 set (enabledRoomsRef_current []);;
                 set (setIsAIEnabled false));;
            fetch_history p r1 r2)
           (λ e, emit (ConsoleError (str "Error loading messages:") e)))
        (set (setIsFetchingHistory false))
  end.

(** The callback of the timer armed by [handleSendMessage]. *)
Definition refreshMessages (p : props) (r1 r2 : promise (list ChatMessage.t)) : task unit :=
  try_finally
    (try_catch
       (fetch_history p r1 r2)
       (λ e, emit (ConsoleError (str "Error refreshing messages:") e)))
    (set (setIsSending false)).

(** The request body built at lines 110-129. *)
Definition send_body (newMessage : jsstring) (conv : RoomListMessage.t)
    (acc : WxAccount.t) (currentTime : jsstring) : SendRequest.t :=
  let roomId := remove_all 64 (RoomListMessage.room_id conv) in
  let sender := or_else (WxAccount.wxid acc) (str "unknown") in
  let dagRunId := str "manual_" ++ sender ++ str "_" ++ roomId ++ str "_" ++ currentTime in
  {| SendRequest.conf_ :=
       {| SendRequest.content := newMessage;
          SendRequest.source_ip := WxAccount.source_ip acc;
          SendRequest.room_id := RoomListMessage.room_id conv;
          SendRequest.sender := sender;
          SendRequest.msg_type := 1;
          SendRequest.is_self := true;
          SendRequest.is_group := RoomListMessage.is_group conv |};
     SendRequest.dag_run_id := dagRunId;
     SendRequest.data_interval_end := currentTime;
     SendRequest.data_interval_start := currentTime;
     SendRequest.logical_date := currentTime;
     SendRequest.note := str "manual_send" |}.

(** [handleSendMessage]; [snap] is the render the handler closes over,
    [currentTime] the value of [new Date().toISOString()]. *)
Definition handleSendMessage (p : props) (snap : state) (currentTime : jsstring)
    (sent : promise unit) : task unit :=
  match conversation p, selectedAccount p with
  | Some conv, Some acc =>
      if negb (truthy (trim (newMessage snap))) then mret tt
      else
        set (setNewMessage []);;
        set (setIsLoading true);;
        try_finally
          (try_catch
             (sending ← fetch (sendChatMessageApi (send_body (newMessage snap) conv acc currentTime)) sent;
              await sending;;
              set (setIsSending true);;
              emit (SetTimeout (refreshMessages_fn p) 2000))
             (λ e, emit (ConsoleError (str "Error sending message:") e)))
          (set (setIsLoading false))
  | _, _ => mret tt
  end.

(** Lines 207-220: the copy of the stored list after the push, respectively
    the splice, of the click handler. *)
Definition updated_rooms (newAIEnabled : bool) (currentRooms : list jsstring)
    (room_id : jsstring) : list jsstring :=
  if newAIEnabled then
    if negb (includes currentRooms room_id) then currentRooms ++ [room_id]
    else currentRooms
  else
    let index := indexOf currentRooms room_id in
    if (index >? -1)%Z then splice1 currentRooms index else currentRooms.

(** The click handler of the AI switch (lines 201-234).  The switch is only
    rendered when a conversation is selected. *)
Definition onToggleAI (p : props) (conv : RoomListMessage.t) (snap : state)
    (posted : promise unit) : task unit :=
  let newAIEnabled := negb (isAIEnabled snap) in
  set (setIsAIEnabled newAIEnabled);;
  try_catch
    (stored ← current enabledRoomsRef;
     let currentRooms := updated_rooms newAIEnabled stored (RoomListMessage.room_id conv) in
     set (enabledRoomsRef_current currentRooms);;
     posting ← fetch (postAIReplyListApi (name_or p []) (wxid_or p []) currentRooms) posted;
     await posting)
    (λ e,
       emit (ConsoleError (str "Error updating AI enabled rooms:") e);;
       set (setIsAIEnabled (negb newAIEnabled))).

(** The effect on [conversation] (lines 39-45). *)
Definition conversation_effect (p : props) : task unit :=
  match conversation p with
  | Some _ => emit (Invoke (loadMessages_fn p))
  | None => set (setMessages [])
  end.

(** The key React gives each rendered message row (line 286). *)
Definition message_keys (s : state) : list jsstring := Message.id <$> messages s.

End with_host.

End DialogPage.

(** ** The dialog view: [Dialog] in [src/dialog.tsx] *)

Module Dialog.

Record ApiCustomerInfo := mkCustomerInfo {
  name : option jsstring;
  age : option jsstring;
  gender : option jsstring;
  region : option jsstring;
  contact : option jsstring
}.

(** The closures the component starts or hands to [setInterval], each with the
    variables of the render it closes over. *)
Inductive closure : Type :=
| fetchWxAccounts_fn
| pollMessageCount_fn (selectedAccount : option WxAccount.t) (messageCount : jsstring)
| getConversations_fn (selectedAccount : option WxAccount.t).

#[global] Instance closure_eq_dec : EqDecision closure.
Proof. solve_decision. Defined.

(** The [useState] cells and the [pollingInterval] ref.  The timer handle kept
    in the ref is identified with the closure the timer runs. *)
Record state := mkState {
  conversations : list RoomListMessage.t;
  wxAccountList : list WxAccount.t;
  selectedConversation : option RoomListMessage.t;
  selectedAccount : option WxAccount.t;
  showAIDropdown : gmap jsstring bool;
  messageCount : jsstring;
  customerInfo : option ApiCustomerInfo;
  isLoading : bool;
  isLoadingConversations : bool;
  pollingInterval : option closure
}.

Definition initial : state :=
  {| conversations := []; wxAccountList := []; selectedConversation := None;
     selectedAccount := None; showAIDropdown := ∅; messageCount := [];
     customerInfo := None; isLoading := true; isLoadingConversations := false;
     pollingInterval := None |}.

Inductive update : Type :=
| setConversations (l : list RoomListMessage.t)
| setWxAccountList (l : list WxAccount.t)
| setSelectedConversation (c : option RoomListMessage.t)
| setSelectedAccount (a : option WxAccount.t)
| setShowAIDropdown (f : gmap jsstring bool → gmap jsstring bool)
| setMessageCount (c : jsstring)
| setCustomerInfo (i : option ApiCustomerInfo)
| setIsLoading (b : bool)
| setIsLoadingConversations (b : bool)
| pollingInterval_current (h : option closure).

#[global] Instance update_setter : Setter update state := λ u s,
  match u with
  | setConversations l =>
      mkState l (wxAccountList s) (selectedConversation s) (selectedAccount s) (showAIDropdown s)
        (messageCount s) (customerInfo s) (isLoading s) (isLoadingConversations s) (pollingInterval s)
  | setWxAccountList l =>
      mkState (conversations s) l (selectedConversation s) (selectedAccount s) (showAIDropdown s)
        (messageCount s) (customerInfo s) (isLoading s) (isLoadingConversations s) (pollingInterval s)
  | setSelectedConversation c =>
      mkState (conversations s) (wxAccountList s) c (selectedAccount s) (showAIDropdown s)
        (messageCount s) (customerInfo s) (isLoading s) (isLoadingConversations s) (pollingInterval s)
  | setSelectedAccount a =>
      mkState (conversations s) (wxAccountList s) (selectedConversation s) a (showAIDropdown s)
        (messageCount s) (customerInfo s) (isLoading s) (isLoadingConversations s) (pollingInterval s)
  | setShowAIDropdown f =>
      mkState (conversations s) (wxAccountList s) (selectedConversation s) (selectedAccount s)
        (f (showAIDropdown s))
        (messageCount s) (customerInfo s) (isLoading s) (isLoadingConversations s) (pollingInterval s)
  | setMessageCount c =>
      mkState (conversations s) (wxAccountList s) (selectedConversation s) (selectedAccount s) (showAIDropdown s)
        c (customerInfo s) (isLoading s) (isLoadingConversations s) (pollingInterval s)
  | setCustomerInfo i =>
      mkState (conversations s) (wxAccountList s) (selectedConversation s) (selectedAccount s) (showAIDropdown s)
        (messageCount s) i (isLoading s) (isLoadingConversations s) (pollingInterval s)
  | setIsLoading b =>
      mkState (conversations s) (wxAccountList s) (selectedConversation s) (selectedAccount s) (showAIDropdown s)
        (messageCount s) (customerInfo s) b (isLoadingConversations s) (pollingInterval s)
  | setIsLoadingConversations b =>
      mkState (conversations s) (wxAccountList s) (selectedConversation s) (selectedAccount s) (showAIDropdown s)
        (messageCount s) (customerInfo s) (isLoading s) b (pollingInterval s)
  | pollingInterval_current h =>
      mkState (conversations s) (wxAccountList s) (selectedConversation s) (selectedAccount s) (showAIDropdown s)
        (messageCount s) (customerInfo s) (isLoading s) (isLoadingConversations s) h
  end.

Abbreviation task := (async state update closure).

Section with_host.
Context `{Host}.

(** The comparator of the conversation merge: descending time. *)
Definition newest_first (a b : RoomListMessage.t) : option Z :=
  minus (Date_getTime (RoomListMessage.msg_datetime b))
        (Date_getTime (RoomListMessage.msg_datetime a)).

(** [getConversations] of the render whose selected account is [selectedAccount]. *)
Definition getConversations (selectedAccount : option WxAccount.t)
    (r1 r2 : promise (list RoomListMessage.t)) : task unit :=
  match selectedAccount with
  | None => mret tt
  | Some acc =>
      try_finally
        (try_catch
           (p1 ← fetch (getRoomListMessagesApi (WxAccount.wxid acc)) r1;
            p2 ← fetch (getRoomMpListMessagesApi (WxAccount.wxid acc)) r2;
            '(data1, data2) ← await (Promise_all2 p1 p2);
            let allConversations := sort newest_first (data1 ++ data2) in
            set (setConversations allConversations))
           (λ e, emit (ConsoleError (str "Error fetching conversations:") e)))
        (set (setIsLoadingConversations false))
  end.

End with_host.

Definition fetchWxAccounts (r : promise (list WxAccount.t)) : task unit :=
  set (setIsLoading true);;
  try_finally
    (try_catch
       (p ← fetch getWxAccountListApi r;
        accounts ← await p;
        set (setWxAccountList accounts))
       (λ e, emit (ConsoleError (str "Failed to fetch wx accounts:") e)))
    (set (setIsLoading false)).

(** [pollMessageCount] of the render whose selected account and stored count
    are the two arguments; [r] is the [value] field of the response. *)
Definition pollMessageCount (selectedAccount : option WxAccount.t) (messageCount : jsstring)
    (r : promise jsstring) : task unit :=
  match selectedAccount with
  | None => mret tt
  | Some acc =>
      try_catch
        (p ← fetch (getUserMsgCountApi (WxAccount.name acc)) r;
         newCount ← await p;
         if decide (newCount ≠ messageCount) then set (setMessageCount newCount)
         else mret tt)
        (λ e, emit (ConsoleError (str "Error polling message count:") e))
  end.


(** The polling effect (lines 71-88) and its cleanup (lines 89-93), for the
    render [snap]; its dependencies are [selectedAccount] and [messageCount]. *)
Definition poll_effect (snap : state) : task unit :=
  match selectedAccount snap with
  | Some _ =>
      let poll := pollMessageCount_fn (selectedAccount snap) (messageCount snap) in
      emit (Invoke poll);;
      emit (SetInterval poll 3000);;
      set (pollingInterval_current (Some poll))
  | None => mret tt
  end.

Definition poll_cleanup : task unit :=
  handle ← current pollingInterval;
  match handle with
  | Some k => emit (ClearInterval k)
  | None => mret tt
  end.

(** The effect on [messageCount] (lines 96-103). *)
Definition count_effect (snap : state) : task unit :=
  if truthy (messageCount snap) && bool_decide (is_Some (selectedAccount snap)) then
    emit (Invoke (getConversations_fn (selectedAccount snap)));;
    match selectedConversation snap with
    | Some c => set (setSelectedConversation (Some c))
    | None => mret tt
    end
  else mret tt.


(** What React runs after the render [new] replaces the render [old]: for each
    effect one of whose dependencies changed, first its cleanup, then the
    effect bodies in the order of their declaration.  React compares
    dependencies with [Object.is]; accounts are compared here by their fields,
    which agrees with it as long as the fetched list holds no two accounts
    with the same fields.  ([selection_effect] is left out: it depends on the
    identity of the selected conversation, which [count_effect] renews with
    equal fields, and it issues no request and arms no timer.) *)
Definition commit (old new : state) : task unit :=
  let poll_deps := bool_decide (selectedAccount old ≠ selectedAccount new ∨
                                messageCount old ≠ messageCount new) in
  let count_deps := bool_decide (messageCount old ≠ messageCount new) in
  (if poll_deps then poll_cleanup else mret tt);;
  (if poll_deps then poll_effect new else mret tt);;
  (if count_deps then count_effect new else mret tt).



(** *** The account selector (lines 111-166) *)

(** Rendered output.  A button carries the setter calls its click handler
    makes and whether it is drawn highlighted. *)
#[warnings="-register-all"]
Inductive element : Type :=
| Spinner
| Dot
| Text (s : jsstring)
| Box (key : option jsstring) (children : list element)
| Button (onClick : list update) (highlighted : bool) (children : list element).

Definition account_click (account : WxAccount.t) : list update :=
  [setSelectedAccount (Some account); setIsLoadingConversations true; setConversations []].

Definition dropdown_toggle (account : WxAccount.t) : list update :=
  [setShowAIDropdown (λ prev,
     <[WxAccount.wxid account := negb (default false (prev !! WxAccount.wxid account))]> prev)].

Definition dropdown_close (account : WxAccount.t) : list update :=
  [setShowAIDropdown (λ prev, <[WxAccount.wxid account := false]> prev)].

Definition account_entry (s : state) (account : WxAccount.t) : element :=
  Box (Some (WxAccount.wxid account))
    (Button (account_click account)
       (bool_decide (WxAccount.name <$> selectedAccount s = Some (WxAccount.name account)))
       [Text (WxAccount.name account);
        Button (dropdown_toggle account) false [Text (str "AI")]]
     :: (if default false (showAIDropdown s !! WxAccount.wxid account) then
           [Box None
              [Button (dropdown_close account) false
                 [Box None [Dot]; Text [0x5168; 0x90E8; 0x5F00; 0x542F]%N];
               Button (dropdown_close account) false
                 [Box None []; Text [0x5168; 0x90E8; 0x5173; 0x95ED]%N]]]
         else [])).

Definition loading_placeholder : element :=
  Box None [Spinner; Text [0x52A0; 0x8F7D; 0x4E2D; 0x002E; 0x002E; 0x002E]%N].

Definition empty_placeholder : element :=
  Box None [Text [0x6682; 0x65E0; 0x5FAE; 0x4FE1; 0x53F7]%N].

Definition account_selector (s : state) : list element :=
  if isLoading s then [loading_placeholder]
  else if bool_decide (length (wxAccountList s) = 0) then [empty_placeholder]
  else account_entry s <$> wxAccountList s.

Definition key_of (e : element) : option jsstring :=
  match e with Box key _ => key | _ => None end.

(** The account a click handler selects, if it selects one. *)
Definition selects (onClick : list update) : option WxAccount.t :=
  match onClick with
  | setSelectedAccount a :: _ => a
  | _ => None
  end.

(** The accounts the buttons of a rendered tree select, in document order,
    and the number of buttons of any kind in it. *)
Fixpoint select_buttons (e : element) : list WxAccount.t :=
  match e with
  | Box _ children => flat_map select_buttons children
  | Button onClick _ children =>
      match selects onClick with
      | Some a => a :: flat_map select_buttons children
      | None => flat_map select_buttons children
      end
  | _ => []
  end.

Fixpoint buttons (e : element) : nat :=
  match e with
  | Box _ children => list_sum (map buttons children)
  | Button _ _ children => S (list_sum (map buttons children))
  | _ => 0
  end.

End Dialog.

(** ** The route table of [src/src/App.tsx] and [EmployeeEdit] *)

Module App.

Inductive segment : Type :=
| Static (s : jsstring)
| Dynamic (name : jsstring).

Inductive page : Type :=
| Login
| NavigateToDashboard
| Dashboard
| EmployeeTable
| EmployeeEdit
| Dialog
| TaskPage
| CalendarComponent.

#[global] Instance page_eq_dec : EqDecision page.
Proof. solve_decision. Defined.

(** The routes nested under the protected ["/*"] route (lines 25-31). *)
Definition routes : list (list segment * page) :=
  [ ([], NavigateToDashboard);
    ([Static (str "dashboard")], Dashboard);
    ([Static (str "employee")], EmployeeTable);
    ([Static (str "employee"); Static (str "edit"); Dynamic (str "name")], EmployeeEdit);
    ([Static (str "dialog")], Dialog);
    ([Static (str "task")], TaskPage);
    ([Static (str "calendar")], CalendarComponent) ].

(** The pieces of a pathname between slashes, then its segments: the piece
    before the leading slash and the empty pieces of trailing slashes are
    dropped. *)
Fixpoint split_path (pathname : jsstring) (piece : jsstring) : list jsstring :=
  match pathname with
  | [] => [piece]
  | c :: rest =>
      if (c =? 47)%N then piece :: split_path rest []
      else split_path rest (piece ++ [c])
  end.

Fixpoint drop_empty (pieces : list jsstring) : list jsstring :=
  match pieces with
  | [] :: pieces' => drop_empty pieces'
  | _ => pieces
  end.

Definition segments (pathname : jsstring) : list jsstring :=
  rev (drop_empty (rev (drop 1 (split_path pathname [])))).

(** Static segments are compared ignoring ASCII case, as the router does. *)
Definition lower (c : N) : N :=
  if ((65 <=? c) && (c <=? 90))%N then (c + 32)%N else c.

(** Matching a pattern against the segments of a pathname; a dynamic segment
    binds its name to the non-empty segment it meets (the percent-decoding of
    the value is not modelled). *)
Fixpoint match_segments (pattern : list segment) (path : list jsstring)
    : option (gmap jsstring jsstring) :=
  match pattern, path with
  | [], [] => Some ∅
  | Static s :: pattern', seg :: path' =>
      if decide (lower <$> s = lower <$> seg) then match_segments pattern' path' else None
  | Dynamic n :: pattern', seg :: path' =>
      if truthy seg then params ← match_segments pattern' path'; Some (<[n := seg]> params)
      else None
  | _, _ => None
  end.

(** The parameter names a pattern declares. *)
Definition param_names (pattern : list segment) : list jsstring :=
  omap (λ seg, match seg with Dynamic n => Some n | Static _ => None end) pattern.

Fixpoint match_routes (table : list (list segment * page)) (path : list jsstring)
    : option (page * gmap jsstring jsstring) :=
  match table with
  | [] => None
  | (pattern, target) :: table' =>
      match match_segments pattern path with
      | Some params => Some (target, params)
      | None => match_routes table' path
      end
  end.

(** The page shown for a pathname and what [useParams] returns there: the
    parameters of the matched route together with the splat of the enclosing
    ["/*"] route.  ["/login"] is matched by the outer table (line 16). *)
Definition navigate (pathname : jsstring) : option (page * gmap jsstring jsstring) :=
  let path := segments pathname in
  if decide ((fmap lower <$> path) = [str "login"]) then Some (Login, ∅)
  else
    match match_routes routes path with
    | Some (target, params) => Some (target, <[str "*" := drop 1 pathname]> params)
    | None => None
    end.

End App.

Module EmployeeEdit.

Record state := mkState { prompt : jsstring }.

Definition initial : state := {| prompt := [] |}.

Inductive update : Type :=
| setPrompt (s : jsstring).

#[global] Instance update_setter : Setter update state := λ u s,
  match u with setPrompt p => mkState p end.

Inductive closure : Type :=
| fetchPrompt_fn (wxAccount : option WxAccount.t).

Abbreviation task := (async state update closure).

(** [const { wxid } = useParams()] *)
Definition wxid (params : gmap jsstring jsstring) : option jsstring :=
  params !! str "wxid".

(** [fetchPrompt] (lines 17-28); the response is its [value] field, [None]
    when the response or the field is missing. *)
Definition fetchPrompt (wxAccount : option WxAccount.t) (r : promise (option jsstring)) : task unit :=
  match wxAccount with
  | Some acc =>
      try_catch
        (p ← fetch (getWxAccountPromptApi (WxAccount.wxid acc) (WxAccount.name acc)) r;
         response ← await p;
         match response with
         | Some value => if truthy value then set (setPrompt value) else mret tt
         | None => mret tt
         end)
        (λ e, emit (ConsoleError (str "Failed to fetch prompt:") e))
  | None => mret tt
  end.

(** [{wxAccount?.name || wxid}]: the text after the fixed part of the
    heading; nothing is drawn for [undefined]. *)
Definition heading_subject (params : gmap jsstring jsstring) (wxAccount : option WxAccount.t)
    : option jsstring :=
  match wxAccount with
  | Some acc => if truthy (WxAccount.name acc) then Some (WxAccount.name acc) else wxid params
  | None => wxid params
  end.

Definition heading (params : gmap jsstring jsstring) (wxAccount : option WxAccount.t) : jsstring :=
  [0x5458; 0x5DE5; 0x7F16; 0x8F91; 0x0020; 0x002D; 0x0020]%N
    ++ default [] (heading_subject params wxAccount).

End EmployeeEdit.

(** ** The navigation bar: [NavBar], second part of
    [src/src/employee/employeeEdit.tsx] *)

Module NavBar.

(** [String.prototype.startsWith], [endsWith] and [slice(0, -1)]. *)
Fixpoint startsWith (s searchString : jsstring) : bool :=
  match searchString, s with
  | [], _ => true
  | c :: searchString', d :: s' => (c =? d)%N && startsWith s' searchString'
  | _ :: _, [] => false
  end.

Definition endsWith (s searchString : jsstring) : bool :=
  startsWith (rev s) (rev searchString).

Definition slice_0_minus1 (s : jsstring) : jsstring := take (length s - 1) s.

(** [s.split('@')[0]]: the text before the first occurrence of the separator,
    the whole string when there is none. *)
Fixpoint split_first (separator : N) (s : jsstring) : jsstring :=
  match s with
  | [] => []
  | c :: s' => if (c =? separator)%N then [] else c :: split_first separator s'
  end.

Inductive icon : Type :=
| dashboardSVG | employeeSVG | dialogSVG | taskSVG | calenderSVG | serverSVG.

Record NavItem := mkNavItem { name : jsstring; icon_ : icon; url : jsstring }.

#[global] Instance icon_eq_dec : EqDecision icon.
Proof. solve_decision. Defined.
#[global] Instance NavItem_eq_dec : EqDecision NavItem.
Proof. solve_decision. Defined.

Definition navItems : list NavItem :=
  [ mkNavItem [0x4EEA; 0x8868; 0x76D8]%N dashboardSVG (str "/dashboard");
    mkNavItem [0x5458; 0x5DE5]%N employeeSVG (str "/employee");
    mkNavItem [0x5BF9; 0x8BDD]%N dialogSVG (str "/dialog");
    mkNavItem [0x4EFB; 0x52A1]%N taskSVG (str "/task");
    mkNavItem [0x65E5; 0x5386]%N calenderSVG (str "/calendar");
    mkNavItem [0x670D; 0x52A1; 0x5668]%N serverSVG (str "/server") ].

(** Line 81: the path with one trailing slash dropped. *)
Definition currentPath (path : jsstring) : jsstring :=
  if endsWith path (str "/") then slice_0_minus1 path else path.

(** The predicate of the [find] at lines 82-85. *)
Definition matches (currentPath : jsstring) (item : NavItem) : bool :=
  bool_decide (currentPath = url item) ||
  (startsWith currentPath (url item) && negb (bool_decide (url item = str "/dashboard"))).

Definition findSelectedNavItem (path : jsstring) : jsstring :=
  let matchingItem := List.find (matches (currentPath path)) navItems in
  match matchingItem with
  | Some item => name item
  | None => [0x4EEA; 0x8868; 0x76D8]%N
  end.

Record UserData := mkUserData {
  displayName : option jsstring;
  email : option jsstring
}.

(** The [useState] cells, and the pathname of the router's location. *)
Record state := mkState {
  selected : jsstring;
  showLogoutDialog : bool;
  isCollapsed : bool;
  userData : UserData;
  pathname : jsstring
}.

Definition initial (pathname : jsstring) : state :=
  {| selected := findSelectedNavItem pathname; showLogoutDialog := false;
     isCollapsed := false; userData := mkUserData None None; pathname := pathname |}.

(** The setter calls; [navigate] is the call of the router's function. *)
Inductive update : Type :=
| setSelected (s : jsstring)
| setShowLogoutDialog (b : bool)
| setIsCollapsed (b : bool)
| setUserData (u : UserData)
| navigate (to : jsstring).

#[global] Instance update_setter : Setter update state := λ u s,
  match u with
  | setSelected x => mkState x (showLogoutDialog s) (isCollapsed s) (userData s) (pathname s)
  | setShowLogoutDialog b => mkState (selected s) b (isCollapsed s) (userData s) (pathname s)
  | setIsCollapsed b => mkState (selected s) (showLogoutDialog s) b (userData s) (pathname s)
  | setUserData d => mkState (selected s) (showLogoutDialog s) (isCollapsed s) d (pathname s)
  | navigate to => mkState (selected s) (showLogoutDialog s) (isCollapsed s) (userData s) to
  end.

Abbreviation task := (async state update unit).

(** The effect on [location.pathname] (lines 99-101), for the render [snap]. *)
Definition location_effect (snap : state) : task unit :=
  set (setSelected (findSelectedNavItem (pathname snap))).

(** The callback given to [onAuthStateChanged] (lines 105-117). *)
Definition authStateChanged (user : option UserData) : task unit :=
  match user with
  | Some u => set (setUserData (mkUserData (displayName u) (email u)))
  | None => set (setUserData (mkUserData None None))
  end.

Definition handleClick (itemName url : jsstring) : task unit :=
  set (setSelected itemName);;
  set (navigate url).

(** [handleLogout]; the argument is the outcome of [logoutUser()]. *)
Definition handleLogout (loggedOut : promise unit) : task unit :=
  try_catch
    (await loggedOut;;
     set (navigate (str "/login")))
    (λ e, emit (ConsoleError [0x9000; 0x51FA; 0x767B; 0x5F55; 0x5931; 0x8D25; 0x003A]%N e)).

Definition toggleCollapse (snap : state) : task unit :=
  set (setIsCollapsed (negb (isCollapsed snap))).

(** Lines 166-171: the key React gives each rendered item, and the items
    drawn highlighted ([selected === item.name]). *)
Definition item_keys : list jsstring := name <$> navItems.

Definition highlighted (s : state) : list NavItem :=
  filter (λ item, selected s = name item) navItems.

(** Line 185: the seed of the avatar. *)
Definition avatar_seed (u : UserData) : jsstring :=
  opt_or_else (displayName u) (opt_or_else (email u) (str "User")).

(** Line 192: the name shown under the avatar. *)
Definition user_label (u : UserData) : jsstring :=
  opt_or_else (displayName u)
    (opt_or_else (split_first 64 <$> email u) [0x7528; 0x6237]%N).

(** Line 198: the account line. *)
Definition account_label (u : UserData) : jsstring :=
  opt_or_else (email u) [0x8D26; 0x53F7]%N.

End NavBar.

(** ** Vocabulary of the statements *)

Section orders.
Context `{Host}.

(** A datetime string the host's [Date] can read. *)
Definition valid_date (s : jsstring) : Prop := is_Some (Date_getTime s).

(** Newest first: a record never precedes a strictly newer one.  Records
    without a readable date are not constrained. *)
Definition newest_first_order (a b : RoomListMessage.t) : Prop :=
  match Date_getTime (RoomListMessage.msg_datetime a),
        Date_getTime (RoomListMessage.msg_datetime b) with
  | Some ta, Some tb => (tb ≤ ta)%Z
  | _, _ => True
  end.

(** Oldest first, on chat records and on the display records made of them. *)
Definition oldest_first_order (a b : ChatMessage.t) : Prop :=
  match Date_getTime (ChatMessage.msg_datetime a),
        Date_getTime (ChatMessage.msg_datetime b) with
  | Some ta, Some tb => (ta ≤ tb)%Z
  | _, _ => True
  end.

Definition ascending_timestamps (a b : DialogPage.Message.t) : Prop :=
  match DialogPage.Message.timestamp a, DialogPage.Message.timestamp b with
  | Some ta, Some tb => (ta ≤ tb)%Z
  | _, _ => True
  end.

End orders.

(** The store after a list of setter calls, as a click handler makes them. *)
Definition apply_all {U S} `{!Setter U S} (calls : list U) (s : S) : S :=
  foldl (λ s u, apply u s) s calls.

(** The closures a trace starts, or hands to a timer. *)
Definition scheduled {U K} (t : list (event U K)) : list K :=
  omap (λ ev, match ev with
              | SetTimeout k _ => Some k
              | SetInterval k _ => Some k
              | Invoke k => Some k
              | _ => None
              end) t.

(** How many times a value occurs in a list. *)
Definition occurrences {A} `{EqDecision A} (x : A) (l : list A) : nat :=
  length (filter (λ y, y = x) l).


(** The run ends normally, its error caught, and writes one line to the
    console error stream, the one that starts with [label]. *)
Definition caught_and_logged {S U K} (run : async S U K unit) (s : S)
    (label : jsstring) : Prop :=
  result_of run s = Normal tt ∧ errors_logged (trace_of run s) = [label].

(** The room lists a trace posts to the server. *)
Definition posted_rooms {U K} (t : list (event U K)) : list (list jsstring) :=
  omap (λ r, match r with postAIReplyListApi _ _ rooms => Some rooms | _ => None end)
       (fetches t).

(** ** Fixtures of the examples *)

Module Examples.

(** The JSON text of an array of strings that need no escaping. *)
Fixpoint join (sep : jsstring) (l : list jsstring) : jsstring :=
  match l with
  | [] => []
  | [x] => x
  | x :: l' => x ++ sep ++ join sep l'
  end.

Definition stringify (l : list jsstring) : jsstring :=
  [91%N] ++ join [44%N] ((λ s, [34%N] ++ s ++ [34%N]) <$> l) ++ [93%N].

Definition room1 : jsstring := str "room1@chatroom".
Definition room2 : jsstring := str "room2@chatroom".

(** A host that reads three ISO dates and four room lists; everything else is
    an invalid date, respectively a syntax error. *)
Definition host : Host :=
  {| Date_getTime := λ s,
       if decide (s = str "2024-01-01T00:00:00.000Z") then Some 1704067200000%Z
       else if decide (s = str "2024-01-02T00:00:00.000Z") then Some 1704153600000%Z
       else if decide (s = str "2024-01-03T00:00:00.000Z") then Some 1704240000000%Z
       else None;
     JSON_parse := λ s,
       snd <$> list_find (λ l, stringify l = s)
                 [ []; [room1]; [room2; room1]; [room1; room1] ] |}.

Definition alice : WxAccount.t :=
  {| WxAccount.wxid := str "wxid_alice"; WxAccount.name := str "alice";
     WxAccount.source_ip := str "10.0.0.7" |}.

Definition bob : WxAccount.t :=
  {| WxAccount.wxid := str "wxid_bob"; WxAccount.name := str "bob";
     WxAccount.source_ip := str "10.0.0.8" |}.

Definition conversation_at (room datetime : jsstring) : RoomListMessage.t :=
  {| RoomListMessage.room_id := room;
     RoomListMessage.room_name := Some (str "team");
     RoomListMessage.sender_name := Some (str "carol");
     RoomListMessage.msg_datetime := datetime;
     RoomListMessage.is_group := true |}.

Definition jan1 : jsstring := str "2024-01-01T00:00:00.000Z".
Definition jan2 : jsstring := str "2024-01-02T00:00:00.000Z".
Definition jan3 : jsstring := str "2024-01-03T00:00:00.000Z".

Definition chat_at (id datetime : jsstring) : ChatMessage.t :=
  {| ChatMessage.msg_id := id;
     ChatMessage.content := Some (str "hello");
     ChatMessage.msg_datetime := datetime;
     ChatMessage.sender_id := str "wxid_carol";
     ChatMessage.sender_name := Some (str "carol");
     ChatMessage.msg_type := Some 1%Z |}.

(** The chat page with ["hi"] typed in the input. *)
Definition typing : DialogPage.state :=
  apply (DialogPage.setNewMessage (str "hi")) DialogPage.initial.

Definition page_props : DialogPage.props :=
  {| DialogPage.conversation := Some (conversation_at room1 jan1);
     DialogPage.selectedAccount := Some alice |}.

End Examples.

(** ** Proof automation *)

(** Unfolds an asynchronous function down to its store and trace. *)
Ltac run_async :=
  unfold store_after, trace_of, result_of, mbind, mret, async_bind, async_ret,
    bind, ret, try_finally, try_catch, await, fetch, set, emit, throw, current;
  cbn.

(** Membership in a list that is given element by element. *)
Ltac solve_elem_of :=
  repeat first [apply list_elem_of_here | apply list_elem_of_further].

(** One case for each element of a list that is given element by element. *)
Ltac nav_cases H :=
  repeat (apply elem_of_cons in H as [->|H]); [..|by apply elem_of_nil in H].

(** ** Facts about the JavaScript primitives *)


Example trim_strips_both_ends :
  trim ([0x3000; 0x20]%N ++ str "hi there" ++ [0x0A; 0x09]%N) = str "hi there".
Proof. vm_compute. reflexivity. Qed.

Example indexOf_first_occurrence :
  indexOf [str "a"; str "b"; str "a"] (str "a") = 0%Z ∧
  indexOf [str "a"; str "b"; str "a"] (str "b") = 1%Z ∧
  indexOf [str "a"; str "b"; str "a"] (str "c") = (-1)%Z.
Proof. vm_compute. done. Qed.

Example sort_is_stable_on_ties :
  sort (λ a b : Z * Z, Some (a.1 - b.1)%Z) [(2, 0); (1, 1); (2, 2); (1, 3)]%Z
  = [(1, 1); (1, 3); (2, 0); (2, 2)]%Z.
Proof. vm_compute. reflexivity. Qed.

Example routes_of_the_table :
  fst <$> App.navigate (str "/employee") = Some App.EmployeeTable ∧
  fst <$> App.navigate (str "/Employee/Edit/bob/") = Some App.EmployeeEdit ∧
  fst <$> App.navigate (str "/employee/edit") = None ∧
  fst <$> App.navigate (str "/") = Some App.NavigateToDashboard ∧
  fst <$> App.navigate (str "/login") = Some App.Login.
Proof. vm_compute. done. Qed.

Section sort_facts.
Context {A : Type} (comparefn : A → A → option Z).

Lemma sort_insert_Permutation x l : sort_insert comparefn x l ≡ₚ x :: l.
Proof.
  induction l as [|y l IH]; simpl; [done|].
  destruct (SortCompare comparefn x y <=? 0)%Z; [done|].
  rewrite IH. apply Permutation_swap.
Qed.

Lemma sort_Permutation l : sort comparefn l ≡ₚ l.
Proof.
  induction l as [|x l IH]; simpl; [done|].
  change (foldr (sort_insert comparefn) [] l) with (sort comparefn l).
  by rewrite sort_insert_Permutation, IH.
Qed.

Lemma sort_length l : length (sort comparefn l) = length l.
Proof. by rewrite (sort_Permutation l). Qed.

Context (P : A → Prop) (le : A → A → Prop).
Hypothesis le_compare : ∀ x y, P x → P y → (SortCompare comparefn x y ≤ 0)%Z ↔ le x y.
Hypothesis le_total : ∀ x y, P x → P y → le x y ∨ le y x.
Hypothesis le_trans : ∀ x y z, P x → P y → P z → le x y → le y z → le x z.

Lemma sort_insert_StronglySorted x l :
  P x → Forall P l → StronglySorted le l → StronglySorted le (sort_insert comparefn x l).
Proof.
  intros Px. induction l as [|y l IH]; intros HP Hs; simpl.
  - repeat constructor.
  - apply Forall_cons in HP as [Py HP].
    apply StronglySorted_cons in Hs as [Hy Hs].
    destruct (Z.leb_spec (SortCompare comparefn x y) 0) as [Hle|Hgt].
    + apply le_compare in Hle; [|done..].
      apply StronglySorted_cons. split; [|by apply StronglySorted_cons].
      constructor; [done|].
      rewrite Forall_forall in Hy, HP. apply Forall_forall. intros z Hz.
      apply (le_trans x y z); auto.
    + assert (le y x) as Hyx.
      { destruct (le_total x y Px Py) as [Hxy|]; [|done].
        apply le_compare in Hxy; [lia|done..]. }
      apply StronglySorted_cons. split; [|by apply IH].
      rewrite sort_insert_Permutation. by constructor.
Qed.

Lemma sort_StronglySorted l : Forall P l → StronglySorted le (sort comparefn l).
Proof.
  induction l as [|x l IH]; intros HP; simpl; [constructor|].
  apply Forall_cons in HP as [Px HP].
  change (foldr (sort_insert comparefn) [] l) with (sort comparefn l).
  apply sort_insert_StronglySorted; [done| |by apply IH].
  by rewrite sort_Permutation.
Qed.

End sort_facts.

(** ** The merges of the dialog view *)

Section merges.
Context `{Host}.

Lemma newest_first_compare (x y : RoomListMessage.t) :
  valid_date (RoomListMessage.msg_datetime x) →
  valid_date (RoomListMessage.msg_datetime y) →
  (SortCompare Dialog.newest_first x y ≤ 0)%Z ↔ newest_first_order x y.
Proof.
  intros [tx Hx] [ty Hy].
  unfold SortCompare, Dialog.newest_first, newest_first_order.
  rewrite Hx, Hy. simpl. lia.
Qed.

Lemma oldest_first_compare (x y : ChatMessage.t) :
  valid_date (ChatMessage.msg_datetime x) →
  valid_date (ChatMessage.msg_datetime y) →
  (SortCompare DialogPage.oldest_first x y ≤ 0)%Z ↔ oldest_first_order x y.
Proof.
  intros [tx Hx] [ty Hy].
  unfold SortCompare, DialogPage.oldest_first, oldest_first_order.
  rewrite Hx, Hy. simpl. lia.
Qed.

Lemma newest_first_sorted (l : list RoomListMessage.t) :
  Forall (λ c, valid_date (RoomListMessage.msg_datetime c)) l →
  StronglySorted newest_first_order (sort Dialog.newest_first l).
Proof.
  apply sort_StronglySorted.
  - apply newest_first_compare.
  - intros x y [tx Hx] [ty Hy]. unfold newest_first_order. rewrite Hx, Hy. lia.
  - intros x y z [tx Hx] [ty Hy] [tz Hz]. unfold newest_first_order.
    rewrite Hx, Hy, Hz. lia.
Qed.

Lemma oldest_first_sorted (l : list ChatMessage.t) :
  Forall (λ m, valid_date (ChatMessage.msg_datetime m)) l →
  StronglySorted oldest_first_order (sort DialogPage.oldest_first l).
Proof.
  apply sort_StronglySorted.
  - apply oldest_first_compare.
  - intros x y [tx Hx] [ty Hy]. unfold oldest_first_order. rewrite Hx, Hy. lia.
  - intros x y z [tx Hx] [ty Hy] [tz Hz]. unfold oldest_first_order.
    rewrite Hx, Hy, Hz. lia.
Qed.

Lemma getConversations_merged acc data1 data2 s :
  Dialog.conversations
    (store_after (Dialog.getConversations (Some acc) (Fulfilled data1) (Fulfilled data2)) s)
  = sort Dialog.newest_first (data1 ++ data2).
Proof. reflexivity. Qed.

Lemma loadMessages_merged p conv value records1 records2 s :
  DialogPage.conversation p = Some conv →
  DialogPage.messages
    (store_after (DialogPage.loadMessages p (Fulfilled value)
                    (Fulfilled records1) (Fulfilled records2)) s)
  = DialogPage.transform p <$> sort DialogPage.oldest_first (records1 ++ records2).
Proof.
  intros Hc. unfold DialogPage.loadMessages, DialogPage.fetch_history. rewrite Hc.
  run_async. destruct (JSON_parse value); reflexivity.
Qed.

Lemma transform_keeps_order p (x y : ChatMessage.t) :
  oldest_first_order x y →
  ascending_timestamps (DialogPage.transform p x) (DialogPage.transform p y).
Proof. done. Qed.

(** C1, as amended: when every [msg_datetime] of the two responses is a
    readable date, [getConversations] stores exactly the elements of the two
    room-list responses, concatenated and sorted newest first, and
    [loadMessages] stores one display record for each element of the two
    chat-message responses, concatenated and sorted oldest first. *)
Theorem merge_sorted_by_time (acc : WxAccount.t) (data1 data2 : list RoomListMessage.t)
    (s : Dialog.state) (p : DialogPage.props) (conv : RoomListMessage.t)
    (value : jsstring) (records1 records2 : list ChatMessage.t) (s' : DialogPage.state) :
  Forall (λ c, valid_date (RoomListMessage.msg_datetime c)) (data1 ++ data2) →
  Forall (λ m, valid_date (ChatMessage.msg_datetime m)) (records1 ++ records2) →
  DialogPage.conversation p = Some conv →
  let merged :=
    Dialog.conversations
      (store_after (Dialog.getConversations (Some acc) (Fulfilled data1) (Fulfilled data2)) s) in
  let history := sort DialogPage.oldest_first (records1 ++ records2) in
  let shown :=
    DialogPage.messages
      (store_after (DialogPage.loadMessages p (Fulfilled value)
                      (Fulfilled records1) (Fulfilled records2)) s') in
  (merged ≡ₚ data1 ++ data2 ∧ StronglySorted newest_first_order merged) ∧
  (shown = DialogPage.transform p <$> history ∧
   history ≡ₚ records1 ++ records2 ∧
   StronglySorted oldest_first_order history ∧
   StronglySorted ascending_timestamps shown).
Proof.
  intros Hv1 Hv2 Hc merged history shown.
  assert (shown = DialogPage.transform p <$> history) as Hshown
    by (by apply loadMessages_merged with conv).
  assert (StronglySorted oldest_first_order history) as Hsorted
    by (by apply oldest_first_sorted).
  split; [split|split; [done|split; [|split; [done|]]]].
  - unfold merged. rewrite getConversations_merged. apply sort_Permutation.
  - unfold merged. rewrite getConversations_merged. by apply newest_first_sorted.
  - apply sort_Permutation.
  - rewrite Hshown.
    by apply (StronglySorted_fmap _ oldest_first_order); [apply transform_keeps_order|].
Qed.

End merges.

Lemma merge_sorted_by_time_witness :
  let data1 := [Examples.conversation_at Examples.room1 Examples.jan1] in
  let data2 := [Examples.conversation_at Examples.room2 Examples.jan3] in
  let records1 := [Examples.chat_at (str "m2") Examples.jan2] in
  let records2 := [Examples.chat_at (str "m1") Examples.jan1] in
  Dialog.conversations
    (store_after (@Dialog.getConversations Examples.host (Some Examples.alice)
                    (Fulfilled data1) (Fulfilled data2)) Dialog.initial)
    = data2 ++ data1 ∧
  StronglySorted (@ascending_timestamps)
    (DialogPage.messages
       (store_after (@DialogPage.loadMessages Examples.host Examples.page_props
                       (Fulfilled (Examples.stringify [])) (Fulfilled records1)
                       (Fulfilled records2)) DialogPage.initial)).
Proof.
  intros data1 data2 records1 records2.
  split; [vm_compute; reflexivity|].
  refine (proj2 (proj2 (proj2 (proj2
    (@merge_sorted_by_time Examples.host Examples.alice data1 data2 Dialog.initial
       Examples.page_props (Examples.conversation_at Examples.room1 Examples.jan1)
       (Examples.stringify []) records1 records2 DialogPage.initial _ _ eq_refl))))).
  - repeat constructor; vm_compute; eauto.
  - repeat constructor; vm_compute; eauto.
Defined.

(** The claim C1 as stated fails on a response with an unreadable date: the
    record dated 1 January stays ahead of the one dated 2 January. *)
Lemma merge_unsorted_on_invalid_date :
  let data1 := [Examples.conversation_at Examples.room1 Examples.jan1;
                Examples.conversation_at Examples.room2 []] in
  let data2 := [Examples.conversation_at Examples.room1 Examples.jan2] in
  let merged :=
    Dialog.conversations
      (store_after (@Dialog.getConversations Examples.host (Some Examples.alice)
                      (Fulfilled data1) (Fulfilled data2)) Dialog.initial) in
  merged = data1 ++ data2 ∧
  ¬ StronglySorted (@newest_first_order Examples.host) merged.
Proof.
  intros data1 data2 merged.
  assert (merged = data1 ++ data2) as -> by (vm_compute; reflexivity).
  split; [done|]. intros Hs.
  apply StronglySorted_cons in Hs as [Hhd _].
  apply Forall_cons in Hhd as [_ Hhd]. apply Forall_cons in Hhd as [Hbad _].
  vm_compute in Hbad. by apply Hbad.
Qed.

Section duplicates.
Context `{Host}.

Lemma occurrences_app {A} `{EqDecision A} (x : A) l1 l2 :
  occurrences x (l1 ++ l2) = occurrences x l1 + occurrences x l2.
Proof. unfold occurrences. by rewrite filter_app, length_app. Qed.

Lemma occurrences_sort {A} `{EqDecision A} comparefn (x : A) l :
  occurrences x (sort comparefn l) = occurrences x l.
Proof. unfold occurrences. by rewrite sort_Permutation. Qed.

Lemma occurrences_elem_of {A} `{EqDecision A} (x : A) l :
  x ∈ l → 1 ≤ occurrences x l.
Proof.
  intros Hx. unfold occurrences.
  assert (x ∈ filter (λ y, y = x) l) as Hin by (by apply list_elem_of_filter).
  destruct (filter (λ y, y = x) l); [by apply elem_of_nil in Hin|simpl; lia].
Qed.

Lemma message_keys_loaded p conv value records1 records2 s :
  DialogPage.conversation p = Some conv →
  DialogPage.message_keys
    (store_after (DialogPage.loadMessages p (Fulfilled value)
                    (Fulfilled records1) (Fulfilled records2)) s)
  = ChatMessage.msg_id <$> sort DialogPage.oldest_first (records1 ++ records2).
Proof.
  intros Hc. unfold DialogPage.message_keys.
  rewrite (loadMessages_merged p conv) by done.
  rewrite <- list_fmap_compose. done.
Qed.

(** C8: neither merge removes duplicates.  The merged list is as long as the
    two responses together, every record occurs in it as often as in the two
    responses together, so a record returned by both endpoints occurs at
    least twice, and so does its [msg_id] among the keys of the rendered
    message rows. *)
Theorem merges_keep_duplicates (acc : WxAccount.t) (data1 data2 : list RoomListMessage.t)
    (s : Dialog.state) (conv : RoomListMessage.t) (account : option WxAccount.t)
    (value : jsstring) (records1 records2 : list ChatMessage.t) (s' : DialogPage.state) :
  let merged :=
    Dialog.conversations
      (store_after (Dialog.getConversations (Some acc) (Fulfilled data1) (Fulfilled data2)) s) in
  let page :=
    store_after (DialogPage.loadMessages (DialogPage.mkProps (Some conv) account)
                   (Fulfilled value) (Fulfilled records1) (Fulfilled records2)) s' in
  (length merged = length data1 + length data2 ∧
   (∀ c, occurrences c merged = occurrences c data1 + occurrences c data2) ∧
   (∀ c, c ∈ data1 → c ∈ data2 → 2 ≤ occurrences c merged)) ∧
  (length (DialogPage.messages page) = length records1 + length records2 ∧
   (∀ id, occurrences id (DialogPage.message_keys page)
          = occurrences id (ChatMessage.msg_id <$> records1)
            + occurrences id (ChatMessage.msg_id <$> records2)) ∧
   (∀ m, m ∈ records1 → m ∈ records2 →
         2 ≤ occurrences (ChatMessage.msg_id m) (DialogPage.message_keys page))).
Proof.
  intros merged page.
  assert (∀ c, occurrences c merged = occurrences c data1 + occurrences c data2) as Hocc.
  { intros c. unfold merged. rewrite getConversations_merged.
    by rewrite occurrences_sort, occurrences_app. }
  assert (∀ id, occurrences id (DialogPage.message_keys page)
                = occurrences id (ChatMessage.msg_id <$> records1)
                  + occurrences id (ChatMessage.msg_id <$> records2)) as Hkeys.
  { intros id. unfold page. rewrite (message_keys_loaded _ conv) by done.
    unfold occurrences. rewrite sort_Permutation.
    by rewrite fmap_app, filter_app, length_app. }
  split; [split; [|split; [done|]]|split; [|split; [done|]]].
  - unfold merged. rewrite getConversations_merged.
    by rewrite sort_length, length_app.
  - intros c H1 H2. rewrite Hocc.
    apply occurrences_elem_of in H1, H2. lia.
  - unfold page. rewrite (loadMessages_merged _ conv) by done.
    by rewrite length_fmap, sort_length, length_app.
  - intros m H1 H2. rewrite Hkeys.
    apply (list_elem_of_fmap_2 ChatMessage.msg_id) in H1, H2.
    apply occurrences_elem_of in H1, H2. lia.
Qed.

End duplicates.

Lemma merges_keep_duplicates_witness :
  let m := Examples.chat_at (str "m1") Examples.jan1 in
  let page :=
    store_after (@DialogPage.loadMessages Examples.host Examples.page_props
                   (Fulfilled (Examples.stringify [])) (Fulfilled [m]) (Fulfilled [m]))
                DialogPage.initial in
  m ∈ [m] ∧ DialogPage.message_keys page = [str "m1"; str "m1"] ∧
  2 ≤ occurrences (str "m1") (DialogPage.message_keys page).
Proof.
  intros m page.
  assert (m ∈ [m]) as Hm by apply list_elem_of_here.
  split; [done|]. split; [vm_compute; reflexivity|].
  exact (proj2 (proj2 (proj2
    (@merges_keep_duplicates Examples.host Examples.alice [] [] Dialog.initial
       (Examples.conversation_at Examples.room1 Examples.jan1) (Some Examples.alice)
       (Examples.stringify []) [m] [m] DialogPage.initial))) m Hm Hm).
Defined.

(** ** The AI switch *)

Section ai_switch.
Context `{Host}.

Lemma indexOf_from_spec (l : list jsstring) (x : jsstring) (i : Z) :
  ((x ∉ l) ∧ indexOf_from l x i = (-1)%Z) ∨
  (∃ k : nat, indexOf_from l x i = (i + Z.of_nat k)%Z ∧ l !! k = Some x ∧ x ∉ take k l).
Proof.
  revert i. induction l as [|y l IH]; intros i; simpl.
  - left. split; [apply not_elem_of_nil|done].
  - destruct (decide (y = x)) as [->|Hne].
    + right. exists 0. repeat split; [lia|apply not_elem_of_nil].
    + destruct (IH (i + 1)%Z) as [[Hnot Hi]|(k & Hi & Hk & Hpre)].
      * left. split; [|done]. rewrite not_elem_of_cons. done.
      * right. exists (S k). repeat split; [lia|done|].
        simpl. rewrite not_elem_of_cons. done.
Qed.

Lemma occurrences_not_elem_of {A} `{EqDecision A} (x : A) l :
  x ∉ l → occurrences x l = 0.
Proof.
  intros Hx. unfold occurrences.
  destruct (filter (λ y, y = x) l) as [|z l'] eqn:Hf; [done|].
  assert (z ∈ filter (λ y, y = x) l) as Hz by (rewrite Hf; apply list_elem_of_here).
  apply list_elem_of_filter in Hz as [-> Hz]. done.
Qed.

Lemma occurrences_pos_elem_of {A} `{EqDecision A} (x : A) l :
  1 ≤ occurrences x l → x ∈ l.
Proof.
  intros Hpos. destruct (decide (x ∈ l)) as [|Hnot]; [done|].
  rewrite (occurrences_not_elem_of _ _ Hnot) in Hpos. lia.
Qed.

Lemma occurrences_zero {A} `{EqDecision A} (x : A) l :
  occurrences x l = 0 → x ∉ l.
Proof. intros H0 Hx. apply occurrences_elem_of in Hx. lia. Qed.

Lemma updated_rooms_enable rooms rid :
  let rooms' := DialogPage.updated_rooms true rooms rid in
  occurrences rid rooms' = max 1 (occurrences rid rooms) ∧
  filter (λ r, r ≠ rid) rooms' = filter (λ r, r ≠ rid) rooms.
Proof.
  unfold DialogPage.updated_rooms, includes. simpl.
  destruct (bool_decide_reflect (rid ∈ rooms)) as [Hin|Hnot]; simpl.
  - apply occurrences_elem_of in Hin. split; [lia|done].
  - rewrite occurrences_app, (occurrences_not_elem_of _ _ Hnot).
    rewrite filter_app. unfold occurrences. rewrite !filter_cons, !filter_nil.
    destruct (decide (rid = rid)); [|done].
    destruct (decide (rid ≠ rid)); [done|]. by rewrite app_nil_r.
Qed.

Lemma updated_rooms_disable rooms rid :
  let rooms' := DialogPage.updated_rooms false rooms rid in
  occurrences rid rooms' = pred (occurrences rid rooms) ∧
  filter (λ r, r ≠ rid) rooms' = filter (λ r, r ≠ rid) rooms.
Proof.
  unfold DialogPage.updated_rooms, indexOf, splice1. simpl.
  destruct (indexOf_from_spec rooms rid 0) as [[Hnot ->]|(k & -> & Hk & Hpre)]; simpl.
  - by rewrite (occurrences_not_elem_of _ _ Hnot).
  - destruct (Z.gtb_spec (0 + Z.of_nat k) (-1)) as [_|?]; [|lia].
    replace (Z.to_nat (0 + Z.of_nat k)) with k by lia.
    rewrite <- (take_drop_middle rooms k rid Hk) at 2 4.
    rewrite delete_take_drop, !occurrences_app, !filter_app.
    unfold occurrences. rewrite !filter_cons.
    destruct (decide (rid = rid)); [|done].
    destruct (decide (rid ≠ rid)); [done|]. simpl. split; [lia|done].
Qed.

(** The click handler keeps a list that holds the room id at most once in
    that state. *)
Lemma updated_rooms_at_most_once enable rooms rid :
  occurrences rid rooms ≤ 1 →
  occurrences rid (DialogPage.updated_rooms enable rooms rid) ≤ 1.
Proof.
  intros Honce. destruct enable.
  - destruct (updated_rooms_enable rooms rid) as [Hmax _]. rewrite Hmax. lia.
  - destruct (updated_rooms_disable rooms rid) as [Hpred _]. rewrite Hpred. lia.
Qed.

Lemma loadMessages_switch p conv value r1 r2 s :
  DialogPage.conversation p = Some conv →
  let s' := store_after (DialogPage.loadMessages p (Fulfilled value) r1 r2) s in
  match JSON_parse value with
  | Some rooms =>
      DialogPage.enabledRoomsRef s' = rooms ∧
      DialogPage.isAIEnabled s' = includes rooms (RoomListMessage.room_id conv)
  | None =>
      DialogPage.enabledRoomsRef s' = [] ∧ DialogPage.isAIEnabled s' = false
  end.
Proof.
  intros Hc. unfold DialogPage.loadMessages, DialogPage.fetch_history. rewrite Hc.
  run_async. destruct (JSON_parse value), r1 as [d1|e1], r2 as [d2|e2]; done.
Qed.

Lemma onToggleAI_run p conv snap posted s :
  let rid := RoomListMessage.room_id conv in
  let rooms' :=
    DialogPage.updated_rooms (negb (DialogPage.isAIEnabled snap))
      (DialogPage.enabledRoomsRef s) rid in
  let click := DialogPage.onToggleAI p conv snap posted in
  DialogPage.enabledRoomsRef (store_after click s) = rooms' ∧
  posted_rooms (trace_of click s) = [rooms'] ∧
  DialogPage.isAIEnabled (store_after click s)
    = match posted with
      | Fulfilled _ => negb (DialogPage.isAIEnabled snap)
      | Rejected _ => DialogPage.isAIEnabled snap
      end.
Proof.
  unfold DialogPage.onToggleAI. run_async.
  destruct posted; simpl; rewrite ?negb_involutive; done.
Qed.

(** C2, as amended: after a load the switch is on exactly when the room id of
    the conversation is in the fetched list.  When the stored list holds that
    room id at most once, the list a click posts holds it exactly once after
    enabling and not at all after disabling; the other room ids are left as
    they were, in their order; and once the post succeeds the switch again
    shows membership in the stored list. *)
Theorem switch_shows_membership (p : DialogPage.props) (conv : RoomListMessage.t)
    (value : jsstring) (rooms : list jsstring) (r1 r2 : promise (list ChatMessage.t))
    (s0 : DialogPage.state) (snap s : DialogPage.state) (posted : promise unit) :
  DialogPage.conversation p = Some conv →
  JSON_parse value = Some rooms →
  occurrences (RoomListMessage.room_id conv) (DialogPage.enabledRoomsRef s) ≤ 1 →
  let rid := RoomListMessage.room_id conv in
  let loaded := store_after (DialogPage.loadMessages p (Fulfilled value) r1 r2) s0 in
  let click := DialogPage.onToggleAI p conv snap posted in
  let after := store_after click s in
  (DialogPage.enabledRoomsRef loaded = rooms ∧
   (DialogPage.isAIEnabled loaded = true ↔ rid ∈ rooms)) ∧
  (∃ rooms',
     posted_rooms (trace_of click s) = [rooms'] ∧
     DialogPage.enabledRoomsRef after = rooms' ∧
     (DialogPage.isAIEnabled snap = false → occurrences rid rooms' = 1) ∧
     (DialogPage.isAIEnabled snap = true → rid ∉ rooms') ∧
     filter (λ r, r ≠ rid) rooms' = filter (λ r, r ≠ rid) (DialogPage.enabledRoomsRef s) ∧
     (posted = Fulfilled tt → (DialogPage.isAIEnabled after = true ↔ rid ∈ rooms'))).
Proof.
  intros Hc Hparse Honce rid loaded click after. split.
  - pose proof (loadMessages_switch p conv value r1 r2 s0 Hc) as Hl.
    simpl in Hl. rewrite Hparse in Hl. destruct Hl as [Hl1 Hl2].
    split; [done|]. unfold loaded. rewrite Hl2. unfold includes.
    apply bool_decide_eq_true.
  - destruct (onToggleAI_run p conv snap posted s) as (Href & Hposted & Hflag).
    eexists. split; [exact Hposted|]. split; [exact Href|].
    assert (DialogPage.isAIEnabled snap = false →
            occurrences rid
              (DialogPage.updated_rooms (negb (DialogPage.isAIEnabled snap))
                 (DialogPage.enabledRoomsRef s) rid) = 1) as Hon.
    { intros ->.
      pose proof (updated_rooms_enable (DialogPage.enabledRoomsRef s) rid) as [Hmax _].
      simpl negb. rewrite Hmax. fold rid in Honce. lia. }
    assert (DialogPage.isAIEnabled snap = true →
            rid ∉ DialogPage.updated_rooms (negb (DialogPage.isAIEnabled snap))
                    (DialogPage.enabledRoomsRef s) rid) as Hoff.
    { intros ->. apply occurrences_zero.
      pose proof (updated_rooms_disable (DialogPage.enabledRoomsRef s) rid) as [Hpred _].
      simpl negb. rewrite Hpred. fold rid in Honce. lia. }
    split; [done|]. split; [done|]. split.
    + destruct (DialogPage.isAIEnabled snap); simpl.
      * apply updated_rooms_disable.
      * apply updated_rooms_enable.
    + intros ->. unfold after, click. rewrite Hflag.
      destruct (DialogPage.isAIEnabled snap) eqn:Hsnap; cbn [negb] in *.
      * split; [done|]. intros Hin. by destruct (Hoff eq_refl).
      * split; [|done]. intros _. apply occurrences_pos_elem_of.
        pose proof (Hon eq_refl) as Hone. unfold rid in *. lia.
Qed.

End ai_switch.

Lemma switch_shows_membership_witness :
  let conv := Examples.conversation_at Examples.room1 Examples.jan1 in
  let value := Examples.stringify [Examples.room2; Examples.room1] in
  let loaded :=
    store_after (@DialogPage.loadMessages Examples.host Examples.page_props
                   (Fulfilled value) (Fulfilled []) (Fulfilled [])) DialogPage.initial in
  @JSON_parse Examples.host value = Some [Examples.room2; Examples.room1] ∧
  occurrences Examples.room1 (DialogPage.enabledRoomsRef loaded) ≤ 1 ∧
  (DialogPage.isAIEnabled loaded = true ↔ Examples.room1 ∈ [Examples.room2; Examples.room1]) ∧
  ∃ rooms',
    posted_rooms (trace_of (DialogPage.onToggleAI Examples.page_props conv loaded (Fulfilled tt))
                    loaded) = [rooms'] ∧
    Examples.room1 ∉ rooms'.
Proof.
  intros conv value loaded.
  assert (@JSON_parse Examples.host value = Some [Examples.room2; Examples.room1]) as Hparse
    by (vm_compute; reflexivity).
  assert (occurrences Examples.room1 (DialogPage.enabledRoomsRef loaded) ≤ 1) as Honce
    by (vm_compute; lia).
  destruct (@switch_shows_membership Examples.host Examples.page_props conv value
              [Examples.room2; Examples.room1] (Fulfilled []) (Fulfilled [])
              DialogPage.initial loaded loaded (Fulfilled tt) eq_refl Hparse Honce)
    as [[_ Hshown] (rooms' & Hposted & _ & _ & Hoff & _)].
  split; [exact Hparse|]. split; [exact Honce|]. split; [exact Hshown|].
  exists rooms'. split; [exact Hposted|]. apply Hoff. vm_compute. reflexivity.
Defined.

(** The claim C2 as stated fails when the fetched list holds the room id
    twice: the switch is shown on, a click turns it off, and the list posted
    to the server still holds the room id. *)
Lemma disabling_keeps_duplicated_room :
  let conv := Examples.conversation_at Examples.room1 Examples.jan1 in
  let value := Examples.stringify [Examples.room1; Examples.room1] in
  let loaded :=
    store_after (@DialogPage.loadMessages Examples.host Examples.page_props
                   (Fulfilled value) (Fulfilled []) (Fulfilled [])) DialogPage.initial in
  let click := DialogPage.onToggleAI Examples.page_props conv loaded (Fulfilled tt) in
  DialogPage.enabledRoomsRef loaded = [Examples.room1; Examples.room1] ∧
  DialogPage.isAIEnabled loaded = true ∧
  DialogPage.isAIEnabled (store_after click loaded) = false ∧
  posted_rooms (trace_of click loaded) = [[Examples.room1]] ∧
  RoomListMessage.room_id conv ∈ [Examples.room1].
Proof.
  intros conv value loaded click.
  repeat split; try (vm_compute; reflexivity).
  apply list_elem_of_here.
Qed.

(** C3, as amended: the click handler sets the displayed state to its
    opposite before it issues the post, and when the post fails it logs the
    error and sets the displayed state back to the value of the render; the
    stored list of enabled rooms is not restored, it stays the list that was
    posted. *)
Theorem toggle_failure_restores_switch_only (p : DialogPage.props)
    (conv : RoomListMessage.t) (snap s : DialogPage.state) (e : error) :
  let shown := DialogPage.isAIEnabled snap in
  let rooms' :=
    DialogPage.updated_rooms (negb shown) (DialogPage.enabledRoomsRef s)
      (RoomListMessage.room_id conv) in
  let click := DialogPage.onToggleAI p conv snap (Rejected e) in
  trace_of click s =
    [ Call (DialogPage.setIsAIEnabled (negb shown));
      Call (DialogPage.enabledRoomsRef_current rooms');
      Fetch (postAIReplyListApi (DialogPage.name_or p []) (DialogPage.wxid_or p []) rooms');
      ConsoleError (str "Error updating AI enabled rooms:") e;
      Call (DialogPage.setIsAIEnabled (negb (negb shown))) ] ∧
  result_of click s = Normal tt ∧
  DialogPage.isAIEnabled (store_after click s) = shown ∧
  DialogPage.enabledRoomsRef (store_after click s) = rooms' ∧
  DialogPage.messages (store_after click s) = DialogPage.messages s ∧
  DialogPage.newMessage (store_after click s) = DialogPage.newMessage s.
Proof.
  intros shown rooms' click. unfold click, DialogPage.onToggleAI. run_async.
  repeat split. apply negb_involutive.
Qed.

(** The claim C3 as stated fails: after a rejected post the switch is back to
    off, and the stored list, empty before the click, holds the room. *)
Lemma failed_toggle_keeps_new_list :
  let conv := Examples.conversation_at Examples.room1 Examples.jan1 in
  let loaded :=
    store_after (@DialogPage.loadMessages Examples.host Examples.page_props
                   (Fulfilled (Examples.stringify [])) (Fulfilled []) (Fulfilled []))
                DialogPage.initial in
  let click :=
    DialogPage.onToggleAI Examples.page_props conv loaded (Rejected (str "Network Error")) in
  DialogPage.isAIEnabled loaded = false ∧
  DialogPage.enabledRoomsRef loaded = [] ∧
  DialogPage.isAIEnabled (store_after click loaded) = false ∧
  DialogPage.enabledRoomsRef (store_after click loaded) = [Examples.room1] ∧
  DialogPage.enabledRoomsRef (store_after click loaded) ≠ DialogPage.enabledRoomsRef loaded.
Proof.
  intros conv loaded click.
  repeat split; try (vm_compute; reflexivity).
  vm_compute. discriminate.
Qed.

(** ** Failing requests *)

Section failures.
Context `{Host}.

Lemma Promise_all2_rejected {A B} (p1 : promise A) (p2 : promise B) e :
  Promise_all2 p1 p2 = Rejected e →
  p1 = Rejected e ∨ ∃ a, p1 = Fulfilled a ∧ p2 = Rejected e.
Proof.
  destruct p1 as [a|e1], p2 as [b|e2]; simpl; intros Heq;
    try discriminate; simplify_eq; eauto.
Qed.

(** Every other call site of the four files: a rejected request is caught
    and logged once. *)
Lemma other_call_sites_catch (e : error) :
  (∀ s, caught_and_logged (Dialog.fetchWxAccounts (Rejected e)) s
          (str "Failed to fetch wx accounts:")) ∧
  (∀ acc count s,
     caught_and_logged (Dialog.pollMessageCount (Some acc) count (Rejected e)) s
       (str "Error polling message count:")) ∧
  (∀ p r1 r2 s, Promise_all2 r1 r2 = Rejected e →
     caught_and_logged (DialogPage.refreshMessages p r1 r2) s
       (str "Error refreshing messages:")) ∧
  (∀ p conv acc snap now s,
     DialogPage.conversation p = Some conv →
     DialogPage.selectedAccount p = Some acc →
     truthy (trim (DialogPage.newMessage snap)) = true →
     caught_and_logged (DialogPage.handleSendMessage p snap now (Rejected e)) s
       (str "Error sending message:")) ∧
  (∀ p conv snap s,
     caught_and_logged (DialogPage.onToggleAI p conv snap (Rejected e)) s
       (str "Error updating AI enabled rooms:")) ∧
  (∀ acc s,
     caught_and_logged (EmployeeEdit.fetchPrompt (Some acc) (Rejected e)) s
       (str "Failed to fetch prompt:")).
Proof.
  split; [|split; [|split; [|split; [|split]]]].
  - intros s. by split.
  - intros acc count s. by split.
  - intros p r1 r2 s Hr. unfold DialogPage.refreshMessages, DialogPage.fetch_history.
    apply Promise_all2_rejected in Hr as [->|(a & -> & ->)]; by split.
  - intros p conv acc snap now s Hc Ha Hm. unfold DialogPage.handleSendMessage.
    rewrite Hc, Ha, Hm. by split.
  - intros p conv snap s. by split.
  - intros acc s. by split.
Qed.

(** C4, as amended: every call site of the four files catches the error of
    its request and logs it to the console.  When the conversations fetch fails the
    conversation list is left as it was, which is empty right after an
    account was selected; when the message-history load fails the message
    list is left as it was; when the AI-enabled-rooms value cannot be parsed
    the stored room list becomes empty and the switch is shown off. *)
Theorem failed_fetch_is_logged (acc : WxAccount.t)
    (r1 r2 : promise (list RoomListMessage.t)) (e : error) (s : Dialog.state)
    (p : DialogPage.props) (conv : RoomListMessage.t) (ai : promise jsstring)
    (h1 h2 : promise (list ChatMessage.t)) (s' : DialogPage.state) (value : jsstring) :
  Promise_all2 r1 r2 = Rejected e →
  DialogPage.conversation p = Some conv →
  ai = Rejected e ∨ ((∃ v, ai = Fulfilled v) ∧ Promise_all2 h1 h2 = Rejected e) →
  JSON_parse value = None →
  let fetching := Dialog.getConversations (Some acc) r1 r2 in
  let loading := DialogPage.loadMessages p ai h1 h2 in
  let parsing := DialogPage.loadMessages p (Fulfilled value) h1 h2 in
  (result_of fetching s = Normal tt ∧
   errors_logged (trace_of fetching s) = [str "Error fetching conversations:"] ∧
   Dialog.conversations (store_after fetching s) = Dialog.conversations s ∧
   Dialog.conversations
     (store_after fetching (apply_all (Dialog.account_click acc) s)) = []) ∧
  (result_of loading s' = Normal tt ∧
   str "Error loading messages:" ∈ errors_logged (trace_of loading s') ∧
   DialogPage.messages (store_after loading s') = DialogPage.messages s') ∧
  (result_of parsing s' = Normal tt ∧
   str "Error parsing AI enabled rooms:" ∈ errors_logged (trace_of parsing s') ∧
   DialogPage.enabledRoomsRef (store_after parsing s') = [] ∧
   DialogPage.isAIEnabled (store_after parsing s') = false) ∧
  ((∀ s1, caught_and_logged (Dialog.fetchWxAccounts (Rejected e)) s1
            (str "Failed to fetch wx accounts:")) ∧
   (∀ account count s1,
      caught_and_logged (Dialog.pollMessageCount (Some account) count (Rejected e)) s1
        (str "Error polling message count:")) ∧
   (∀ q d1 d2 s1, Promise_all2 d1 d2 = Rejected e →
      caught_and_logged (DialogPage.refreshMessages q d1 d2) s1
        (str "Error refreshing messages:")) ∧
   (∀ q room account snap now s1,
      DialogPage.conversation q = Some room →
      DialogPage.selectedAccount q = Some account →
      truthy (trim (DialogPage.newMessage snap)) = true →
      caught_and_logged (DialogPage.handleSendMessage q snap now (Rejected e)) s1
        (str "Error sending message:")) ∧
   (∀ q room snap s1,
      caught_and_logged (DialogPage.onToggleAI q room snap (Rejected e)) s1
        (str "Error updating AI enabled rooms:")) ∧
   (∀ account s1,
      caught_and_logged (EmployeeEdit.fetchPrompt (Some account) (Rejected e)) s1
        (str "Failed to fetch prompt:"))).
Proof.
  intros Hr Hc Hai Hparse fetching loading parsing.
  split; [|split; [|split; [|apply other_call_sites_catch]]].
  - unfold fetching.
    apply Promise_all2_rejected in Hr as [->|(a & -> & ->)]; done.
  - unfold loading, DialogPage.loadMessages, DialogPage.fetch_history. rewrite Hc.
    destruct Hai as [->|[[v ->] Hh]].
    + run_async. repeat split. apply list_elem_of_here.
    + apply Promise_all2_rejected in Hh as [->|(a & -> & ->)];
        run_async; destruct (JSON_parse v); cbn;
        repeat split; solve_elem_of.
  - unfold parsing, DialogPage.loadMessages, DialogPage.fetch_history. rewrite Hc.
    run_async. rewrite Hparse.
    destruct h1 as [d1|e1], h2 as [d2|e2]; cbn;
      repeat split; solve_elem_of.
Qed.

End failures.

Lemma failed_fetch_is_logged_witness :
  let e := str "Network Error" in
  let parsing :=
    @DialogPage.loadMessages Examples.host Examples.page_props
      (Fulfilled (str "oops")) (Fulfilled []) (Rejected e) in
  @JSON_parse Examples.host (str "oops") = None ∧
  DialogPage.enabledRoomsRef (store_after parsing DialogPage.initial) = [] ∧
  DialogPage.isAIEnabled (store_after parsing DialogPage.initial) = false.
Proof.
  intros e parsing.
  assert (@JSON_parse Examples.host (str "oops") = None) as Hparse
    by (vm_compute; reflexivity).
  split; [exact Hparse|].
  refine (proj2 (proj2 (proj1 (proj2 (proj2
    (@failed_fetch_is_logged Examples.host Examples.alice (Rejected e) (Fulfilled [])
       e Dialog.initial Examples.page_props
       (Examples.conversation_at Examples.room1 Examples.jan1) (Rejected e)
       (Fulfilled []) (Rejected e) DialogPage.initial (str "oops")
       eq_refl eq_refl (or_introl eq_refl) Hparse)))))).
Defined.

(** The claim C4 as stated fails: a conversation list and a message list that
    were loaded before stay as they are, not empty, when the next fetch is
    rejected. *)
Lemma failed_refetch_keeps_stale_lists :
  let failure {A} : promise A := Rejected (str "Network Error") in
  let c := Examples.conversation_at Examples.room1 Examples.jan1 in
  let m := Examples.chat_at (str "m1") Examples.jan1 in
  let listed :=
    store_after (@Dialog.getConversations Examples.host (Some Examples.alice)
                   (Fulfilled [c]) (Fulfilled [])) Dialog.initial in
  let relisted :=
    store_after (@Dialog.getConversations Examples.host (Some Examples.alice)
                   failure (Fulfilled [])) listed in
  let loaded :=
    store_after (@DialogPage.loadMessages Examples.host Examples.page_props
                   (Fulfilled (Examples.stringify [])) (Fulfilled [m]) (Fulfilled []))
                DialogPage.initial in
  let reloaded :=
    store_after (@DialogPage.loadMessages Examples.host Examples.page_props
                   failure (Fulfilled [m]) (Fulfilled [])) loaded in
  Dialog.conversations relisted = [c] ∧
  Dialog.conversations relisted ≠ [] ∧
  length (DialogPage.messages reloaded) = 1 ∧
  DialogPage.messages reloaded ≠ [].
Proof.
  intros failure c m listed relisted loaded reloaded.
  repeat split; try (vm_compute; reflexivity); vm_compute; discriminate.
Qed.

(** ** Sending a message *)

Section sending.
Context `{Host}.

Lemma trimStart_nil (s : jsstring) :
  trimStart s = [] ↔ Forall (λ c, isWhiteSpace c = true) s.
Proof.
  induction s as [|c s IH]; simpl.
  - split; [constructor|done].
  - destruct (isWhiteSpace c) eqn:Hc.
    + rewrite IH. split; [by constructor|by inversion 1].
    + split; [done|]. inversion 1; congruence.
Qed.

Lemma trimStart_head (s : jsstring) c t :
  trimStart s = c :: t → isWhiteSpace c = false.
Proof.
  induction s as [|d s IH]; simpl; [done|].
  destruct (isWhiteSpace d) eqn:Hd; [done|]. by intros [= <- _].
Qed.

(** [trim] leaves nothing exactly of the strings made of white space only,
    the empty string among them. *)
Lemma trim_nil (s : jsstring) :
  trim s = [] ↔ Forall (λ c, isWhiteSpace c = true) s.
Proof.
  unfold trim, trimEnd. split.
  - intros Ht. apply (f_equal (@rev N)) in Ht. rewrite rev_involutive in Ht. simpl in Ht.
    apply trimStart_nil, Forall_rev in Ht. rewrite rev_involutive in Ht.
    destruct (trimStart s) as [|c t] eqn:Hs; [by apply trimStart_nil|].
    apply trimStart_head in Hs. apply Forall_cons in Ht as [Hc _]. congruence.
  - intros Hw. apply trimStart_nil in Hw. by rewrite Hw.
Qed.

Lemma truthy_trim (s : jsstring) :
  truthy (trim s) = false ↔ Forall (λ c, isWhiteSpace c = true) s.
Proof. rewrite <- trim_nil. by destruct (trim s). Qed.

Lemma handleSendMessage_guarded p conv acc snap now sent s :
  DialogPage.conversation p = Some conv →
  DialogPage.selectedAccount p = Some acc →
  truthy (trim (DialogPage.newMessage snap)) = true →
  let body := DialogPage.send_body (DialogPage.newMessage snap) conv acc now in
  trace_of (DialogPage.handleSendMessage p snap now sent) s =
    Call (DialogPage.setNewMessage []) ::
    Call (DialogPage.setIsLoading true) ::
    Fetch (sendChatMessageApi body) ::
    match sent with
    | Fulfilled _ =>
        [Call (DialogPage.setIsSending true);
         SetTimeout (DialogPage.refreshMessages_fn p) 2000;
         Call (DialogPage.setIsLoading false)]
    | Rejected e =>
        [ConsoleError (str "Error sending message:") e;
         Call (DialogPage.setIsLoading false)]
    end.
Proof.
  intros Hc Ha Hm. unfold DialogPage.handleSendMessage. rewrite Hc, Ha, Hm.
  destruct sent; reflexivity.
Qed.





(** C10: [handleSendMessage] does nothing, no request and no change of the
    store, when the input is empty or made of white space only, or when no
    conversation or no account is selected.  Otherwise its first three
    operations are, in this order, the clearing of the input, the loading
    flag, and the send request, which carries the text typed. *)
Theorem send_guard (p : DialogPage.props) (snap s : DialogPage.state) (now : jsstring)
    (sent : promise unit) :
  let run := DialogPage.handleSendMessage p snap now sent in
  (Forall (λ c, isWhiteSpace c = true) (DialogPage.newMessage snap) ∨
   DialogPage.conversation p = None ∨ DialogPage.selectedAccount p = None →
   trace_of run s = [] ∧ store_after run s = s) ∧
  (∀ conv acc,
     DialogPage.conversation p = Some conv →
     DialogPage.selectedAccount p = Some acc →
     ¬ Forall (λ c, isWhiteSpace c = true) (DialogPage.newMessage snap) →
     ∃ body rest,
       trace_of run s =
         Call (DialogPage.setNewMessage []) :: Call (DialogPage.setIsLoading true) ::
         Fetch (sendChatMessageApi body) :: rest ∧
       SendRequest.content (SendRequest.conf_ body) = DialogPage.newMessage snap ∧
       fetches rest = [] ∧
       DialogPage.newMessage (store_after run s) = []).
Proof.
  intros run. split.
  - intros Hguard. unfold run, DialogPage.handleSendMessage.
    destruct (DialogPage.conversation p) as [conv|]; [|done].
    destruct (DialogPage.selectedAccount p) as [acc|]; [|done].
    destruct Hguard as [Hw|[?|?]]; [|done..].
    apply truthy_trim in Hw. by rewrite Hw.
  - intros conv acc Hc Ha Hw.
    assert (truthy (trim (DialogPage.newMessage snap)) = true) as Hm.
    { destruct (truthy _) eqn:Ht; [done|]. by apply truthy_trim in Ht. }
    exists (DialogPage.send_body (DialogPage.newMessage snap) conv acc now).
    eexists. split; [by apply handleSendMessage_guarded|].
    split; [done|]. split; [by destruct sent|].
    unfold run, DialogPage.handleSendMessage. rewrite Hc, Ha, Hm. by destruct sent.
Qed.

End sending.



Lemma send_guard_witness :
  let blank := apply (DialogPage.setNewMessage [0x20; 0x3000; 0x0A]%N) DialogPage.initial in
  let run :=
    DialogPage.handleSendMessage Examples.page_props blank
      (str "2024-01-03T00:00:00.000Z") (Fulfilled tt) in
  Forall (λ c, isWhiteSpace c = true) (DialogPage.newMessage blank) ∧
  trace_of run blank = [] ∧ store_after run blank = blank.
Proof.
  intros blank run.
  assert (Forall (λ c, isWhiteSpace c = true) (DialogPage.newMessage blank)) as Hw
    by (repeat constructor).
  split; [exact Hw|].
  exact (proj1 (send_guard Examples.page_props blank blank
                  (str "2024-01-03T00:00:00.000Z") (Fulfilled tt)) (or_introl Hw)).
Defined.

(** ** Polling the message count *)

Section polling.
Context `{Host}.





End polling.



(** ** The account selector *)

Section selector.

Lemma account_entry_buttons (s : Dialog.state) (a : WxAccount.t) :
  Dialog.select_buttons (Dialog.account_entry s a) = [a] ∧
  Dialog.key_of (Dialog.account_entry s a) = Some (WxAccount.wxid a) ∧
  Dialog.buttons (Dialog.account_entry s a)
    = if default false (Dialog.showAIDropdown s !! WxAccount.wxid a) then 4 else 2.
Proof.
  unfold Dialog.account_entry.
  destruct (default false (Dialog.showAIDropdown s !! WxAccount.wxid a)); done.
Qed.

(** C7: once loading is over, the selector of an empty account list is one
    box that holds the text "暂无微信号" and no button; the selector of any
    other list holds one element for each account, in the order of the list,
    keyed by the [wxid] of the account.  The first child of that element is
    the one button that selects an account, namely that one; it carries the
    name of the account and, nested in it, the "AI" button of the account.
    The element holds these two buttons, and two more, those of the menu,
    while the dropdown of the account is open; so the selector as a whole
    holds at least two buttons for each account. *)
Theorem selector_one_entry_per_account (s : Dialog.state) :
  Dialog.isLoading s = false →
  let opened (a : WxAccount.t) := default false (Dialog.showAIDropdown s !! WxAccount.wxid a) in
  (Dialog.wxAccountList s = [] →
   Dialog.account_selector s
     = [Dialog.Box None [Dialog.Text [0x6682; 0x65E0; 0x5FAE; 0x4FE1; 0x53F7]%N]] ∧
   list_sum (Dialog.buttons <$> Dialog.account_selector s) = 0) ∧
  (Dialog.wxAccountList s ≠ [] →
   length (Dialog.account_selector s) = length (Dialog.wxAccountList s) ∧
   Dialog.key_of <$> Dialog.account_selector s
     = (λ a, Some (WxAccount.wxid a)) <$> Dialog.wxAccountList s ∧
   Forall2 (λ a e,
      Dialog.select_buttons e = [a] ∧
      Dialog.buttons e = (if opened a then 4 else 2) ∧
      ∃ highlighted menu,
        e = Dialog.Box (Some (WxAccount.wxid a))
              (Dialog.Button
                 [Dialog.setSelectedAccount (Some a); Dialog.setIsLoadingConversations true;
                  Dialog.setConversations []]
                 highlighted
                 [Dialog.Text (WxAccount.name a);
                  Dialog.Button (Dialog.dropdown_toggle a) false [Dialog.Text [65; 73]%N]]
               :: menu) ∧
        Dialog.buttons (Dialog.Box None menu) = (if opened a then 2 else 0))
     (Dialog.wxAccountList s) (Dialog.account_selector s) ∧
   flat_map Dialog.select_buttons (Dialog.account_selector s) = Dialog.wxAccountList s ∧
   list_sum (Dialog.buttons <$> Dialog.account_selector s)
     = list_sum ((λ a, if opened a then 4 else 2) <$> Dialog.wxAccountList s) ∧
   2 * length (Dialog.wxAccountList s)
     ≤ list_sum (Dialog.buttons <$> Dialog.account_selector s)).
Proof.
  intros Hl opened. unfold Dialog.account_selector. rewrite Hl. split.
  - intros ->. done.
  - intros Hne. rewrite bool_decide_eq_false_2
      by (by destruct (Dialog.wxAccountList s)).
    clear Hne.
    assert (list_sum (Dialog.buttons <$> (Dialog.account_entry s <$> Dialog.wxAccountList s))
              = list_sum ((λ a, if opened a then 4 else 2) <$> Dialog.wxAccountList s))
      as Hsum.
    { rewrite <- list_fmap_compose. f_equal. apply list_fmap_ext. intros _ a _.
      apply account_entry_buttons. }
    split; [by rewrite length_fmap|]. split; [|split; [|split; [|split]]].
    + rewrite <- list_fmap_compose. apply list_fmap_ext. intros _ a _.
      apply account_entry_buttons.
    + apply Forall2_fmap_r, Forall_Forall2_diag, Forall_forall. intros a _.
      split; [apply account_entry_buttons|]. split; [apply account_entry_buttons|].
      unfold Dialog.account_entry. fold (opened a).
      eexists _, _. split; [reflexivity|]. destruct (opened a); reflexivity.
    + clear Hsum. induction (Dialog.wxAccountList s) as [|a l IH]; [done|].
      rewrite fmap_cons. cbn [flat_map].
      rewrite (proj1 (account_entry_buttons s a)), IH. done.
    + exact Hsum.
    + rewrite Hsum. clear Hsum. induction (Dialog.wxAccountList s) as [|a l IH]; [done|].
      rewrite fmap_cons. simpl in *. destruct (opened a); lia.
Qed.

End selector.

Lemma selector_one_entry_per_account_witness :
  let listed :=
    store_after (Dialog.fetchWxAccounts (Fulfilled [Examples.alice; Examples.bob]))
                Dialog.initial in
  Dialog.isLoading listed = false ∧
  Dialog.key_of <$> Dialog.account_selector listed
    = [Some (str "wxid_alice"); Some (str "wxid_bob")] ∧
  flat_map Dialog.select_buttons (Dialog.account_selector listed)
    = [Examples.alice; Examples.bob] ∧
  2 * 2 ≤ list_sum (Dialog.buttons <$> Dialog.account_selector listed).
Proof.
  intros listed.
  assert (Dialog.wxAccountList listed ≠ []) as Hne by (vm_compute; discriminate).
  destruct (proj2 (selector_one_entry_per_account listed eq_refl) Hne)
    as (_ & Hkeys & _ & Hbuttons & _ & Hall).
  split; [reflexivity|]. split; [exact Hkeys|]. split; [exact Hbuttons|exact Hall].
Defined.

(** The claim C7 as stated fails wherever an account is listed: the element
    of each account holds two buttons, the one that selects the account and
    the "AI" button nested in it, so that two accounts draw four buttons. *)
Lemma selector_draws_two_buttons_per_account :
  let listed :=
    store_after (Dialog.fetchWxAccounts (Fulfilled [Examples.alice; Examples.bob]))
                Dialog.initial in
  Dialog.isLoading listed = false ∧
  Dialog.wxAccountList listed = [Examples.alice; Examples.bob] ∧
  Dialog.buttons <$> Dialog.account_selector listed = [2; 2] ∧
  list_sum (Dialog.buttons <$> Dialog.account_selector listed) = 4 ∧
  list_sum (Dialog.buttons <$> Dialog.account_selector listed)
    ≠ length (Dialog.wxAccountList listed).
Proof.
  intros listed.
  split; [reflexivity|]. split; [reflexivity|]. split; [vm_compute; reflexivity|].
  split; [vm_compute; reflexivity|]. vm_compute. discriminate.
Qed.

(** ** The employee editor *)

Section employee_edit.

Lemma match_segments_params pattern path params k :
  App.match_segments pattern path = Some params →
  is_Some (params !! k) → k ∈ App.param_names pattern.
Proof.
  revert path params.
  induction pattern as [|[s|n] pattern IH]; intros [|seg path] params; simpl; try done.
  - intros [= <-]. rewrite lookup_empty. by intros [? ?].
  - destruct (decide _); [|done]. intros Hm Hk. by apply (IH path params).
  - destruct (truthy seg); [|done].
    destruct (App.match_segments pattern path) as [params'|] eqn:Hm; [|done].
    simpl. intros [= <-]. unfold App.param_names. simpl.
    destruct (decide (n = k)) as [->|Hne]; [intros _; apply list_elem_of_here|].
    rewrite lookup_insert_ne by done. intros Hk.
    apply list_elem_of_further. by apply (IH path params').
Qed.

Lemma match_routes_pattern table path target params :
  App.match_routes table path = Some (target, params) →
  ∃ pattern, (pattern, target) ∈ table ∧ App.match_segments pattern path = Some params.
Proof.
  induction table as [|[pattern t] table IH]; simpl; [done|].
  destruct (App.match_segments pattern path) as [params'|] eqn:Hm.
  - intros [= <- <-]. exists pattern. split; [apply list_elem_of_here|done].
  - intros Hr. destruct (IH Hr) as (pat & Hin & Hn).
    exists pat. split; [by apply list_elem_of_further|done].
Qed.

Lemma match_routes_params table path target params k :
  App.match_routes table path = Some (target, params) →
  is_Some (params !! k) →
  ∃ pattern, (pattern, target) ∈ table ∧ k ∈ App.param_names pattern.
Proof.
  intros Hr Hk. destruct (match_routes_pattern _ _ _ _ Hr) as (pattern & Hin & Hm).
  exists pattern. split; [done|]. by apply match_segments_params with path params.
Qed.

(** The one route that shows [EmployeeEdit] binds [name]. *)
Lemma match_routes_EmployeeEdit path params :
  App.match_routes App.routes path = Some (App.EmployeeEdit, params) →
  is_Some (params !! str "name").
Proof.
  intros Hr. destruct (match_routes_pattern _ _ _ _ Hr) as (pattern & Hin & Hm).
  unfold App.routes in Hin.
  repeat (apply elem_of_cons in Hin as [Heq|Hin]; [try discriminate Heq|]);
    [injection Heq as ->|by apply elem_of_nil in Hin].
  destruct path as [|s1 [|s2 [|s3 [|s4 l]]]]; cbn [App.match_segments] in Hm; try done;
    repeat (destruct (decide _); [|done]); try done;
    (destruct (truthy s3); [|done]); cbn [mbind option_bind] in Hm; try done.
  injection Hm as <-. rewrite lookup_insert_eq. by eexists.
Qed.

(** The only parameters [useParams] can return under the route table are the
    splat of the enclosing route and [name]. *)
Lemma navigate_params pathname target params k :
  App.navigate pathname = Some (target, params) →
  is_Some (params !! k) → k = str "*" ∨ k = str "name".
Proof.
  unfold App.navigate. destruct (decide _).
  - intros [= <- <-]. rewrite lookup_empty. by intros [? ?].
  - destruct (App.match_routes App.routes (App.segments pathname)) as [[t ps]|] eqn:Hr; [|done].
    intros [= <- <-].
    destruct (decide (str "*" = k)) as [<-|Hne]; [by left|].
    rewrite lookup_insert_ne by done. intros Hk. right.
    destruct (match_routes_params _ _ _ _ _ Hr Hk) as (pattern & Hin & Hn).
    unfold App.routes in Hin.
    repeat (apply elem_of_cons in Hin as [[= -> _]|Hin];
            [try (by apply elem_of_nil in Hn);
             try (by apply list_elem_of_singleton in Hn)|]).
    by apply elem_of_nil in Hin.
Qed.

(** C9: on every navigation that shows [EmployeeEdit], the parameter the route
    binds is [name], and [wxid], which the component reads, is undefined.  So
    the heading shows a name only when a [wxAccount] came with the navigation
    state, and then the name of that account; and the prompt request is
    issued exactly when a [wxAccount] came with the navigation state. *)
Theorem employee_edit_reads_undefined_wxid (pathname : jsstring)
    (params : gmap jsstring jsstring) (wxAccount : option WxAccount.t)
    (r : promise (option jsstring)) (s : EmployeeEdit.state) :
  App.navigate pathname = Some (App.EmployeeEdit, params) →
  is_Some (params !! str "name") ∧
  EmployeeEdit.wxid params = None ∧
  (∀ shown, EmployeeEdit.heading_subject params wxAccount = Some shown →
            ∃ acc, wxAccount = Some acc ∧ shown = WxAccount.name acc) ∧
  (wxAccount = None →
   EmployeeEdit.heading params wxAccount
   = [0x5458; 0x5DE5; 0x7F16; 0x8F91; 0x0020; 0x002D; 0x0020]%N) ∧
  (fetches (trace_of (EmployeeEdit.fetchPrompt wxAccount r) s) ≠ [] ↔ is_Some wxAccount) ∧
  (∀ acc, wxAccount = Some acc →
     fetches (trace_of (EmployeeEdit.fetchPrompt wxAccount r) s)
     = [getWxAccountPromptApi (WxAccount.wxid acc) (WxAccount.name acc)]).
Proof.
  intros Hnav.
  assert (EmployeeEdit.wxid params = None) as Hwxid.
  { unfold EmployeeEdit.wxid.
    destruct (params !! str "wxid") as [v|] eqn:Hv; [|done].
    destruct (navigate_params _ _ _ (str "wxid") Hnav) as [Heq|Heq];
      [by eexists|vm_compute in Heq; discriminate..]. }
  split; [|split; [done|split; [|split; [|split]]]].
  - revert Hnav. unfold App.navigate. destruct (decide _); [done|].
    destruct (App.match_routes App.routes (App.segments pathname)) as [[t ps]|] eqn:Hr; [|done].
    intros [= -> <-]. rewrite lookup_insert_ne by (vm_compute; discriminate).
    by apply match_routes_EmployeeEdit with (App.segments pathname).
  - intros shown. unfold EmployeeEdit.heading_subject. rewrite Hwxid.
    destruct wxAccount as [acc|]; [|done].
    destruct (truthy (WxAccount.name acc)); [|done].
    intros [= <-]. by exists acc.
  - intros ->. unfold EmployeeEdit.heading, EmployeeEdit.heading_subject.
    by rewrite Hwxid.
  - destruct wxAccount as [acc|]; simpl.
    + split; [by eexists|]. intros _.
      destruct r as [[v|]|e]; try done.
      unfold EmployeeEdit.fetchPrompt. run_async. by destruct (truthy v).
    + split; [done|]. by intros [? ?].
  - intros acc ->. destruct r as [[v|]|e]; try done.
    unfold EmployeeEdit.fetchPrompt. run_async. by destruct (truthy v).
Qed.

End employee_edit.

Lemma employee_edit_reads_undefined_wxid_witness :
  let pathname := str "/employee/edit/alice" in
  let params : gmap jsstring jsstring :=
    <[str "*" := str "employee/edit/alice"]> (<[str "name" := str "alice"]> ∅) in
  App.navigate pathname = Some (App.EmployeeEdit, params) ∧
  EmployeeEdit.wxid params = None ∧
  EmployeeEdit.heading params None
  = [0x5458; 0x5DE5; 0x7F16; 0x8F91; 0x0020; 0x002D; 0x0020]%N.
Proof.
  intros pathname params.
  assert (App.navigate pathname = Some (App.EmployeeEdit, params)) as Hnav
    by (vm_compute; reflexivity).
  destruct (employee_edit_reads_undefined_wxid pathname params None
              (Fulfilled None) EmployeeEdit.initial Hnav)
    as (_ & Hwxid & _ & Hheading & _).
  split; [exact Hnav|]. split; [exact Hwxid|]. exact (Hheading eq_refl).
Defined.

(** ** The navigation bar *)

Section nav_bar.

Lemma startsWith_prefix (s p : jsstring) :
  NavBar.startsWith s p = true ↔ ∃ rest, s = p ++ rest.
Proof.
  revert s. induction p as [|c p IH]; intros s.
  - split; [by exists s|by destruct s].
  - destruct s as [|d s]; simpl.
    + split; [done|]. by intros [rest ?].
    + rewrite andb_true_iff, N.eqb_eq, IH. split.
      * intros [-> [rest ->]]. by exists rest.
      * intros [rest [= -> ->]]. split; [done|]. by exists rest.
Qed.

Lemma startsWith_refl (p : jsstring) : NavBar.startsWith p p = true.
Proof. apply startsWith_prefix. exists []. by rewrite app_nil_r. Qed.

Lemma startsWith_take (n : nat) (s p : jsstring) :
  NavBar.startsWith s p = true → n ≤ length p → take n s = take n p.
Proof.
  intros [rest ->]%startsWith_prefix Hn. by rewrite take_app_le.
Qed.

(** Appending a slash to a string that a slash-free-ended prefix is tested
    against changes nothing. *)
Lemma startsWith_snoc_slash (s p : jsstring) :
  last p ≠ Some 47%N →
  NavBar.startsWith (s ++ [47%N]) p = NavBar.startsWith s p.
Proof.
  revert p. induction s as [|a s IH]; intros p Hp; simpl.
  - destruct p as [|c [|d p]]; simpl; [done| |].
    + destruct (N.eqb_spec c 47) as [->|]; [by destruct Hp|done].
    + by rewrite andb_false_r.
  - destruct p as [|c p]; simpl; [done|].
    destruct p as [|d p]; [by destruct s|].
    by rewrite IH.
Qed.

Lemma find_unique {A} (f : A → bool) (l : list A) (x : A) :
  (∀ y z, y ∈ l → z ∈ l → f y = true → f z = true → y = z) →
  x ∈ l → f x = true → List.find f l = Some x.
Proof.
  induction l as [|a l IH]; intros Huniq Hx Hf; [by apply elem_of_nil in Hx|].
  simpl. destruct (f a) eqn:Ha.
  - f_equal. apply Huniq; [apply list_elem_of_here|done..].
  - apply elem_of_cons in Hx as [->|Hx]; [congruence|].
    apply IH; [|done..]. intros y z Hy Hz. apply Huniq; by apply list_elem_of_further.
Qed.

Lemma find_elem_of {A} (f : A → bool) (l : list A) (x : A) :
  List.find f l = Some x → x ∈ l ∧ f x = true.
Proof.
  induction l as [|a l IH]; simpl; [done|].
  destruct (f a) eqn:Ha.
  - intros [= <-]. split; [apply list_elem_of_here|done].
  - intros Hx. destruct (IH Hx). split; [by apply list_elem_of_further|done].
Qed.

Lemma matches_first_three cp item :
  item ∈ NavBar.navItems → NavBar.matches cp item = true →
  take 3 cp = take 3 (NavBar.url item).
Proof.
  intros Hin. unfold NavBar.matches.
  rewrite orb_true_iff, andb_true_iff, bool_decide_eq_true.
  intros [->|[Hs _]]; [done|].
  apply startsWith_take; [done|]. nav_cases Hin; vm_compute; lia.
Qed.

Lemma navItems_first_three x y :
  x ∈ NavBar.navItems → y ∈ NavBar.navItems →
  take 3 (NavBar.url x) = take 3 (NavBar.url y) → x = y.
Proof. intros Hx Hy. nav_cases Hx; nav_cases Hy; vm_compute; done. Qed.

Lemma navItems_names x y :
  x ∈ NavBar.navItems → y ∈ NavBar.navItems → NavBar.name x = NavBar.name y → x = y.
Proof. intros Hx Hy. nav_cases Hx; nav_cases Hy; vm_compute; done. Qed.

Lemma matches_unique cp x y :
  x ∈ NavBar.navItems → y ∈ NavBar.navItems →
  NavBar.matches cp x = true → NavBar.matches cp y = true → x = y.
Proof.
  intros Hx Hy Mx My. apply navItems_first_three; [done..|].
  by rewrite <- (matches_first_three cp x), <- (matches_first_three cp y).
Qed.

Lemma matches_other cp item :
  NavBar.url item ≠ str "/dashboard" →
  NavBar.matches cp item = NavBar.startsWith cp (NavBar.url item).
Proof.
  intros Hne. unfold NavBar.matches.
  rewrite (bool_decide_eq_false_2 (NavBar.url item = _)) by done.
  rewrite andb_true_r. destruct (bool_decide_reflect (cp = NavBar.url item)) as [->|]; [|done].
  by rewrite startsWith_refl.
Qed.

Lemma findSelectedNavItem_item cp item :
  item ∈ NavBar.navItems → NavBar.url item ≠ str "/dashboard" →
  (match List.find (NavBar.matches cp) NavBar.navItems with
   | Some found => NavBar.name found
   | None => [0x4EEA; 0x8868; 0x76D8]%N
   end = NavBar.name item) ↔ NavBar.startsWith cp (NavBar.url item) = true.
Proof.
  intros Hin Hne. rewrite <- (matches_other cp item Hne). split.
  - destruct (List.find _ _) as [found|] eqn:Hf.
    + apply find_elem_of in Hf as [Hfound Hm]. intros Hn.
      by rewrite <- (navItems_names found item Hfound Hin Hn).
    + intros Hn. exfalso. apply Hne.
      assert (NavBar.mkNavItem [0x4EEA; 0x8868; 0x76D8]%N NavBar.dashboardSVG
                (str "/dashboard") = item) as <-; [|done].
      apply navItems_names; [apply list_elem_of_here|done..].
  - intros Hm. rewrite (find_unique _ _ item); [done| |done..].
    intros y z Hy Hz. by apply matches_unique.
Qed.

Lemma findSelectedNavItem_dashboard cp :
  (match List.find (NavBar.matches cp) NavBar.navItems with
   | Some found => NavBar.name found
   | None => [0x4EEA; 0x8868; 0x76D8]%N
   end = [0x4EEA; 0x8868; 0x76D8]%N) ↔
  ∀ item, item ∈ NavBar.navItems → NavBar.url item ≠ str "/dashboard" →
    NavBar.startsWith cp (NavBar.url item) = false.
Proof.
  split.
  - intros Hd item Hin Hne.
    destruct (NavBar.startsWith _ _) eqn:Hs; [|done]. exfalso.
    apply (findSelectedNavItem_item _ item Hin Hne) in Hs.
    rewrite Hd in Hs.
    revert Hs. nav_cases Hin; vm_compute; first [discriminate | by destruct Hne].
  - intros Hnone.
    destruct (List.find _ _) as [found|] eqn:Hf; [|done].
    apply find_elem_of in Hf as [Hfound Hm].
    destruct (decide (NavBar.url found = str "/dashboard")) as [Hd|Hd].
    + revert Hd. nav_cases Hfound; vm_compute; done.
    + rewrite (matches_other _ _ Hd), (Hnone found Hfound Hd) in Hm. done.
Qed.

(** The result is the name of the dashboard or of an item whose url is a
    prefix. *)
Lemma findSelectedNavItem_cases cp :
  let result :=
    match List.find (NavBar.matches cp) NavBar.navItems with
    | Some found => NavBar.name found
    | None => [0x4EEA; 0x8868; 0x76D8]%N
    end in
  result = [0x4EEA; 0x8868; 0x76D8]%N ∨
  ∃ item, item ∈ NavBar.navItems ∧ NavBar.url item ≠ str "/dashboard" ∧
          result = NavBar.name item.
Proof.
  cbv zeta.
  destruct (List.find (NavBar.matches cp) NavBar.navItems) as [found|] eqn:Hf; [|by left].
  apply find_elem_of in Hf as [Hfound Hm].
  destruct (decide (NavBar.url found = str "/dashboard")) as [Hd|Hd].
  - left. revert Hd. nav_cases Hfound; vm_compute; done.
  - right. by exists found.
Qed.

(** Two paths that the urls of the table prefix alike select the same item. *)
Lemma findSelectedNavItem_ext cp1 cp2 :
  (∀ item, item ∈ NavBar.navItems →
     NavBar.startsWith cp1 (NavBar.url item) = NavBar.startsWith cp2 (NavBar.url item)) →
  match List.find (NavBar.matches cp1) NavBar.navItems with
  | Some found => NavBar.name found
  | None => [0x4EEA; 0x8868; 0x76D8]%N
  end =
  match List.find (NavBar.matches cp2) NavBar.navItems with
  | Some found => NavBar.name found
  | None => [0x4EEA; 0x8868; 0x76D8]%N
  end.
Proof.
  intros Hsame.
  destruct (findSelectedNavItem_cases cp2) as [Hd|(item & Hin & Hne & Hn)];
    cbv zeta in *.
  - rewrite Hd. apply findSelectedNavItem_dashboard. intros item Hin Hne.
    rewrite Hsame by done. by apply (findSelectedNavItem_dashboard cp2).
  - rewrite Hn. apply findSelectedNavItem_item; [done..|].
    rewrite Hsame by done. by apply (findSelectedNavItem_item cp2).
Qed.

Lemma currentPath_snoc_slash (path : jsstring) :
  NavBar.currentPath (path ++ [47%N]) = path.
Proof.
  unfold NavBar.currentPath, NavBar.endsWith, NavBar.slice_0_minus1.
  rewrite rev_app_distr. change (rev (str "/")) with [47%N]. simpl.
  replace (NavBar.startsWith (rev path) []) with true by (by destruct (rev path)).
  rewrite length_app. simpl. replace (length path + 1 - 1) with (length path) by lia.
  by rewrite take_app_length.
Qed.

Lemma currentPath_cases (path : jsstring) :
  NavBar.currentPath path = path ∨
  ∃ q, path = q ++ [47%N] ∧ NavBar.currentPath path = q.
Proof.
  destruct (NavBar.endsWith path (str "/")) eqn:He.
  - right. unfold NavBar.endsWith in He. change (rev (str "/")) with [47%N] in He.
    destruct (rev path) as [|c r] eqn:Hr; [done|]. cbn [NavBar.startsWith] in He.
    apply andb_true_iff in He as [Hc _]. apply N.eqb_eq in Hc. subst c.
    exists (rev r). assert (path = rev r ++ [47%N]) as Hp.
    { rewrite <- (rev_involutive path), Hr. done. }
    split; [done|]. rewrite Hp at 1. apply currentPath_snoc_slash.
  - left. unfold NavBar.currentPath. by rewrite He.
Qed.

(** X1: the item [findSelectedNavItem] picks is decided by prefixes alone.
    For an item other than the dashboard, the result is its name exactly when
    its url is a prefix of the path with one trailing slash dropped; the
    result is the dashboard's name exactly when no such item has its url as a
    prefix. *)
Theorem findSelectedNavItem_by_prefix (path : jsstring) :
  (∀ item, item ∈ NavBar.navItems → NavBar.url item ≠ str "/dashboard" →
     NavBar.findSelectedNavItem path = NavBar.name item ↔
     NavBar.startsWith (NavBar.currentPath path) (NavBar.url item) = true) ∧
  (NavBar.findSelectedNavItem path = [0x4EEA; 0x8868; 0x76D8]%N ↔
   ∀ item, item ∈ NavBar.navItems → NavBar.url item ≠ str "/dashboard" →
     NavBar.startsWith (NavBar.currentPath path) (NavBar.url item) = false).
Proof.
  split.
  - intros item Hin Hne. by apply findSelectedNavItem_item.
  - apply findSelectedNavItem_dashboard.
Qed.

(** X2: a slash appended to the path never changes the selected item. *)
Theorem findSelectedNavItem_trailing_slash (path : jsstring) :
  NavBar.findSelectedNavItem (path ++ str "/") = NavBar.findSelectedNavItem path.
Proof.
  change (str "/") with [47%N]. unfold NavBar.findSelectedNavItem. cbv zeta.
  rewrite currentPath_snoc_slash. apply findSelectedNavItem_ext. intros item Hin.
  destruct (currentPath_cases path) as [->|(q & -> & ->)]; [done|].
  apply startsWith_snoc_slash. nav_cases Hin; vm_compute; discriminate.
Qed.

(** X3: clicking a navigation item selects its name and navigates to its
    url, and the effect that then recomputes the selection from the new
    location picks the same name. *)
Theorem handleClick_agrees_with_location (item : NavBar.NavItem) (s : NavBar.state) :
  item ∈ NavBar.navItems →
  let clicked := store_after (NavBar.handleClick (NavBar.name item) (NavBar.url item)) s in
  NavBar.selected clicked = NavBar.name item ∧
  NavBar.pathname clicked = NavBar.url item ∧
  NavBar.selected (store_after (NavBar.location_effect clicked) clicked) = NavBar.name item ∧
  NavBar.findSelectedNavItem (NavBar.url item) = NavBar.name item.
Proof.
  intros Hin clicked.
  assert (NavBar.findSelectedNavItem (NavBar.url item) = NavBar.name item) as Hf
    by (nav_cases Hin; vm_compute; reflexivity).
  repeat split; done.
Qed.

(** X4: every navigation item except the last leads to a page of the route
    table, and never to the login page; the url of the last one, ["/server"],
    matches no route. *)
Theorem navItems_and_routes (item : NavBar.NavItem) :
  item ∈ NavBar.navItems →
  (NavBar.url item ≠ str "/server" →
   ∃ target params, App.navigate (NavBar.url item) = Some (target, params) ∧
                    target ≠ App.Login) ∧
  (NavBar.url item = str "/server" → App.navigate (NavBar.url item) = None).
Proof.
  intros Hin. nav_cases Hin; (split; [intros Hne|intros Heq]);
    try (by destruct Hne); try (vm_compute in Heq; discriminate);
    try (vm_compute; reflexivity);
    eexists _, _; (split; [vm_compute; reflexivity|discriminate]).
Qed.

(** X5: the texts shown for the signed-in user are never empty, and each
    falls back in a fixed order.  The name is the display name when there is
    one; else the part of the e-mail address before its first ["@"], the
    whole address when it holds none; else, when there is no address or that
    part is empty, the word "用户".  The seed of the avatar is the display
    name, else the whole e-mail address, else ["User"]; the account line is
    the e-mail address, else the word "账号".  Without a display name the
    name holds no ["@"]. *)
Theorem user_texts_never_empty (u : NavBar.UserData) :
  let absent (o : option jsstring) := o = None ∨ o = Some [] in
  (NavBar.user_label u ≠ [] ∧ NavBar.avatar_seed u ≠ [] ∧ NavBar.account_label u ≠ []) ∧
  (∀ d, NavBar.displayName u = Some d → d ≠ [] →
     NavBar.user_label u = d ∧ NavBar.avatar_seed u = d) ∧
  (absent (NavBar.displayName u) →
     (∀ pre post, NavBar.email u = Some (pre ++ 64%N :: post) → (64%N ∉ pre) → pre ≠ [] →
        NavBar.user_label u = pre) ∧
     (∀ e, NavBar.email u = Some e → (64%N ∉ e) → e ≠ [] → NavBar.user_label u = e) ∧
     (∀ post, NavBar.email u = Some (64%N :: post) →
        NavBar.user_label u = [0x7528; 0x6237]%N) ∧
     (absent (NavBar.email u) →
        NavBar.user_label u = [0x7528; 0x6237]%N ∧
        NavBar.avatar_seed u = [85; 115; 101; 114]%N) ∧
     (∀ e, NavBar.email u = Some e → e ≠ [] → NavBar.avatar_seed u = e) ∧
     (64%N ∉ NavBar.user_label u)) ∧
  (∀ e, NavBar.email u = Some e → e ≠ [] → NavBar.account_label u = e) ∧
  (absent (NavBar.email u) → NavBar.account_label u = [0x8D26; 0x53F7]%N).
Proof.
  intros absent.
  assert (∀ e, 64%N ∉ NavBar.split_first 64 e) as Hsplit.
  { induction e as [|c e IH]; simpl; [apply not_elem_of_nil|].
    destruct (N.eqb_spec c 64); [apply not_elem_of_nil|].
    apply not_elem_of_cons. split; [congruence|done]. }
  assert (∀ pre post, 64%N ∉ pre → NavBar.split_first 64 (pre ++ 64%N :: post) = pre)
    as Hprefix.
  { induction pre as [|c pre IH]; intros post Hpre; [done|].
    apply not_elem_of_cons in Hpre as [Hc Hpre]. simpl.
    destruct (N.eqb_spec c 64); [congruence|]. by rewrite IH. }
  assert (∀ e, 64%N ∉ e → NavBar.split_first 64 e = e) as Hwhole.
  { induction e as [|c e IH]; intros He; [done|].
    apply not_elem_of_cons in He as [Hc He]. simpl.
    destruct (N.eqb_spec c 64); [congruence|]. by rewrite IH. }
  assert (∀ a b, b ≠ [] → opt_or_else a b ≠ []) as Hnonempty
    by (by intros [[|c a]|] b Hb).
  assert (∀ a d, a = Some d → d ≠ [] → ∀ b, opt_or_else a b = d) as Hsome
    by (by intros a [|c d] -> Hd b).
  assert (∀ a, absent a → ∀ b, opt_or_else a b = b) as Hnone
    by (by intros a [->| ->] b).
  assert (64%N ∉ [0x7528; 0x6237]%N) as Hword
    by (repeat (apply not_elem_of_cons; split; [done|]); apply not_elem_of_nil).
  unfold NavBar.user_label, NavBar.avatar_seed, NavBar.account_label.
  split; [|split; [|split; [|split]]].
  - split; [by repeat apply Hnonempty|]. split; [by repeat apply Hnonempty|].
    by apply Hnonempty.
  - intros d Hd Hne. by rewrite !(Hsome _ d Hd Hne).
  - intros Hd. rewrite !(Hnone _ Hd).
    split; [|split; [|split; [|split; [|split]]]].
    + intros pre post -> Hpre Hne. cbn [fmap option_fmap option_map].
      apply Hsome; [|done]. by rewrite Hprefix.
    + intros e -> He Hne. cbn [fmap option_fmap option_map].
      apply Hsome; [|done]. by rewrite Hwhole.
    + intros post ->. cbn [fmap option_fmap option_map NavBar.split_first].
      by rewrite N.eqb_refl.
    + intros He. split; [by destruct He as [->| ->]|].
      rewrite (Hnone _ He). by vm_compute.
    + intros e He Hne. by apply Hsome.
    + destruct (NavBar.email u) as [e|]; cbn [fmap option_fmap option_map opt_or_else];
        [|done].
      unfold or_else. pose proof (Hsplit e) as He.
      by destruct (NavBar.split_first 64 e).
  - intros e He Hne. by apply Hsome.
  - intros He. by apply Hnone.
Qed.

End nav_bar.

Lemma findSelectedNavItem_by_prefix_witness :
  let employee := NavBar.mkNavItem [0x5458; 0x5DE5]%N NavBar.employeeSVG (str "/employee") in
  employee ∈ NavBar.navItems ∧
  NavBar.startsWith (NavBar.currentPath (str "/employee/edit/bob/")) (NavBar.url employee) = true ∧
  NavBar.findSelectedNavItem (str "/employee/edit/bob/") = [0x5458; 0x5DE5]%N.
Proof.
  intros employee.
  assert (employee ∈ NavBar.navItems) as Hin by solve_elem_of.
  assert (NavBar.url employee ≠ str "/dashboard") as Hne by (vm_compute; discriminate).
  assert (NavBar.startsWith (NavBar.currentPath (str "/employee/edit/bob/"))
            (NavBar.url employee) = true) as Hs by (vm_compute; reflexivity).
  split; [exact Hin|]. split; [exact Hs|].
  exact (proj2 (proj1 (findSelectedNavItem_by_prefix (str "/employee/edit/bob/"))
                  employee Hin Hne) Hs).
Defined.

Lemma handleClick_agrees_with_location_witness :
  let dialog := NavBar.mkNavItem [0x5BF9; 0x8BDD]%N NavBar.dialogSVG (str "/dialog") in
  let clicked :=
    store_after (NavBar.handleClick (NavBar.name dialog) (NavBar.url dialog))
                (NavBar.initial (str "/dashboard")) in
  dialog ∈ NavBar.navItems ∧
  NavBar.selected (store_after (NavBar.location_effect clicked) clicked) = [0x5BF9; 0x8BDD]%N.
Proof.
  intros dialog clicked.
  assert (dialog ∈ NavBar.navItems) as Hin by solve_elem_of.
  split; [exact Hin|].
  exact (proj1 (proj2 (proj2
    (handleClick_agrees_with_location dialog (NavBar.initial (str "/dashboard")) Hin)))).
Defined.

Lemma navItems_and_routes_witness :
  let server := NavBar.mkNavItem [0x670D; 0x52A1; 0x5668]%N NavBar.serverSVG (str "/server") in
  server ∈ NavBar.navItems ∧ App.navigate (str "/server") = None.
Proof.
  intros server.
  assert (server ∈ NavBar.navItems) as Hin by solve_elem_of.
  split; [exact Hin|].
  exact (proj2 (navItems_and_routes server Hin) eq_refl).
Defined.

Lemma user_texts_never_empty_witness :
  let u := NavBar.mkUserData (Some []) (Some (str "carol@example.com")) in
  (NavBar.displayName u = None ∨ NavBar.displayName u = Some []) ∧
  NavBar.email u = Some (str "carol" ++ 64%N :: str "example.com") ∧
  (64%N ∉ str "carol") ∧
  str "carol" ≠ [] ∧
  NavBar.user_label u = str "carol".
Proof.
  intros u.
  assert (NavBar.email u = Some (str "carol" ++ 64%N :: str "example.com")) as He
    by (vm_compute; reflexivity).
  assert (64%N ∉ str "carol") as Hpre by (apply (bool_decide_unpack _); vm_compute; exact I).
  assert (str "carol" ≠ []) as Hne by (vm_compute; discriminate).
  split; [right; reflexivity|]. split; [exact He|]. split; [exact Hpre|].
  split; [exact Hne|].
  exact (proj1 (proj1 (proj2 (proj2 (user_texts_never_empty u))) (or_intror eq_refl))
           (str "carol") (str "example.com") He Hpre Hne).
Defined.

(** ** The dialog view between requests *)

Section dialog_view.
Context `{Host}.

Lemma account_entry_ext (s s' : Dialog.state) (b : WxAccount.t) :
  Dialog.selectedAccount s' = Dialog.selectedAccount s →
  default false (Dialog.showAIDropdown s' !! WxAccount.wxid b)
    = default false (Dialog.showAIDropdown s !! WxAccount.wxid b) →
  Dialog.account_entry s' b = Dialog.account_entry s b.
Proof. intros Hsel Hshow. unfold Dialog.account_entry. by rewrite Hsel, Hshow. Qed.

(** X6: the dropdown of an account opens and closes with its "AI" button.
    One click changes the entries of the accounts with that [wxid] only, a
    second click gives back the selector as it was drawn, and the two menu
    entries close the dropdown again. *)
Theorem dropdown_toggle_round_trip (s : Dialog.state) (a : WxAccount.t) :
  let once := apply_all (Dialog.dropdown_toggle a) s in
  let twice := apply_all (Dialog.dropdown_toggle a) once in
  let closed := apply_all (Dialog.dropdown_close a) once in
  Dialog.account_selector twice = Dialog.account_selector s ∧
  (∀ b, WxAccount.wxid b ≠ WxAccount.wxid a →
        Dialog.account_entry once b = Dialog.account_entry s b) ∧
  Dialog.buttons (Dialog.account_entry once a) + Dialog.buttons (Dialog.account_entry s a) = 6 ∧
  Dialog.buttons (Dialog.account_entry closed a) = 2.
Proof.
  intros once twice closed.
  assert (∀ b, default false (Dialog.showAIDropdown twice !! WxAccount.wxid b)
               = default false (Dialog.showAIDropdown s !! WxAccount.wxid b)) as Htwice.
  { intros b. simpl. destruct (decide (WxAccount.wxid a = WxAccount.wxid b)) as [<-|Hne].
    - rewrite !lookup_insert_eq. simpl. apply negb_involutive.
    - by rewrite !lookup_insert_ne. }
  split; [|split; [|split]].
  - unfold Dialog.account_selector. simpl.
    destruct (Dialog.isLoading s); [done|]. case_bool_decide; [done|].
    apply list_fmap_ext. intros _ b _. by apply account_entry_ext.
  - intros b Hne. apply account_entry_ext; [done|]. simpl. by rewrite lookup_insert_ne.
  - rewrite !(proj2 (proj2 (account_entry_buttons _ _))). simpl.
    rewrite lookup_insert_eq. simpl.
    by destruct (default false (Dialog.showAIDropdown s !! WxAccount.wxid a)).
  - rewrite (proj2 (proj2 (account_entry_buttons _ _))). simpl.
    by rewrite lookup_insert_eq.
Qed.

Lemma commit_selection_changed (st : Dialog.state) (b : WxAccount.t) (k : Dialog.closure) :
  Dialog.selectedAccount st ≠ Some b →
  Dialog.pollingInterval st = Some k →
  let clicked := apply_all (Dialog.account_click b) st in
  let poll := Dialog.pollMessageCount_fn (Some b) (Dialog.messageCount st) in
  trace_of (Dialog.commit st clicked) clicked =
    [ClearInterval k; Invoke poll; SetInterval poll 3000;
     Call (Dialog.pollingInterval_current (Some poll))] ∧
  store_after (Dialog.commit st clicked) clicked
    = apply (Dialog.pollingInterval_current (Some poll)) clicked.
Proof.
  intros Hne Hk clicked poll. unfold Dialog.commit. cbv zeta.
  rewrite (bool_decide_eq_true_2 (_ ∨ _)) by (left; simpl; congruence).
  rewrite (bool_decide_eq_false_2 (Dialog.messageCount st ≠ _)) by (simpl; tauto).
  unfold Dialog.poll_cleanup, Dialog.poll_effect. run_async. by rewrite Hk.
Qed.

(** X7: conversations are only fetched when the stored message count
    changes.  When another account is selected and its first poll returns the
    count that is already stored, or fails, nothing starts [getConversations]:
    the polling is re-armed for the new account, and the conversation list
    stays empty with its loading flag set. *)
Theorem switch_account_same_count (st : Dialog.state) (a b : WxAccount.t)
    (k : Dialog.closure) (r : promise jsstring) :
  Dialog.selectedAccount st = Some a →
  b ≠ a →
  Dialog.pollingInterval st = Some k →
  r = Fulfilled (Dialog.messageCount st) ∨ (∃ e, r = Rejected e) →
  let clicked := apply_all (Dialog.account_click b) st in
  let armed := store_after (Dialog.commit st clicked) clicked in
  let polled :=
    store_after (Dialog.pollMessageCount (Some b) (Dialog.messageCount armed) r) armed in
  let poll := Dialog.pollMessageCount_fn (Some b) (Dialog.messageCount st) in
  scheduled (trace_of (Dialog.commit st clicked) clicked) = [poll; poll] ∧
  polled = armed ∧
  trace_of (Dialog.commit armed polled) polled = [] ∧
  Dialog.selectedAccount polled = Some b ∧
  Dialog.conversations polled = [] ∧
  Dialog.isLoadingConversations polled = true.
Proof.
  intros Ha Hb Hk Hr clicked armed polled poll.
  assert (Dialog.selectedAccount st ≠ Some b) as Hne by (rewrite Ha; congruence).
  destruct (commit_selection_changed st b k Hne Hk) as [Htrace Hstore].
  assert (polled = armed) as Hsame.
  { unfold polled, armed, clicked. rewrite Hstore. unfold Dialog.pollMessageCount.
    destruct Hr as [->|[e ->]]; run_async; [|done].
    by destruct (decide _). }
  split; [unfold clicked; by rewrite Htrace|]. split; [done|]. rewrite Hsame. split.
  - unfold Dialog.commit. cbv zeta. repeat case_bool_decide; try tauto; done.
  - unfold armed, clicked. rewrite Hstore. done.
Qed.


(** X9: once the fetch of the account list is over the loading flag is off
    whatever the answer, and a fetch that fails draws the same selector as an
    empty answer: the placeholder of the empty list. *)
Theorem account_fetch_then_selector (r : promise (list WxAccount.t)) (e : error)
    (s : Dialog.state) :
  Dialog.wxAccountList s = [] →
  Dialog.isLoading (store_after (Dialog.fetchWxAccounts r) s) = false ∧
  Dialog.account_selector (store_after (Dialog.fetchWxAccounts (Rejected e)) s)
    = [Dialog.empty_placeholder] ∧
  Dialog.account_selector (store_after (Dialog.fetchWxAccounts (Fulfilled [])) s)
    = [Dialog.empty_placeholder] ∧
  (∀ l, l ≠ [] →
     Dialog.key_of <$> Dialog.account_selector (store_after (Dialog.fetchWxAccounts (Fulfilled l)) s)
     = (λ a, Some (WxAccount.wxid a)) <$> l).
Proof.
  intros Hempty. split; [by destruct r|]. split; [|split].
  - unfold Dialog.account_selector. simpl. by rewrite Hempty.
  - done.
  - intros l Hl. unfold Dialog.account_selector. simpl.
    rewrite bool_decide_eq_false_2 by (by destruct l).
    rewrite <- list_fmap_compose. by apply list_fmap_ext.
Qed.

(** X10: fetching the conversations feeds nothing back into the polling.
    Whatever the two requests answer, the selected account, the stored count
    and the armed interval are as before, the loading flag is off, and the
    commit that follows runs no effect. *)
Theorem getConversations_no_feedback (acc : WxAccount.t)
    (r1 r2 : promise (list RoomListMessage.t)) (s : Dialog.state) :
  let s' := store_after (Dialog.getConversations (Some acc) r1 r2) s in
  Dialog.selectedAccount s' = Dialog.selectedAccount s ∧
  Dialog.messageCount s' = Dialog.messageCount s ∧
  Dialog.pollingInterval s' = Dialog.pollingInterval s ∧
  Dialog.wxAccountList s' = Dialog.wxAccountList s ∧
  Dialog.isLoadingConversations s' = false ∧
  trace_of (Dialog.commit s s') s' = [].
Proof.
  intros s'.
  assert (Dialog.selectedAccount s' = Dialog.selectedAccount s ∧
          Dialog.messageCount s' = Dialog.messageCount s) as [Hsel Hcount]
    by (by destruct r1 as [d1|e1], r2 as [d2|e2]).
  repeat split; try done; try (by destruct r1 as [d1|e1], r2 as [d2|e2]).
  unfold Dialog.commit. cbv zeta. rewrite Hsel, Hcount.
  repeat case_bool_decide; try tauto; done.
Qed.

End dialog_view.

Lemma dropdown_toggle_round_trip_witness :
  let listed :=
    store_after (Dialog.fetchWxAccounts (Fulfilled [Examples.alice; Examples.bob]))
                Dialog.initial in
  let once := apply_all (Dialog.dropdown_toggle Examples.alice) listed in
  WxAccount.wxid Examples.bob ≠ WxAccount.wxid Examples.alice ∧
  Dialog.account_entry once Examples.bob = Dialog.account_entry listed Examples.bob ∧
  Dialog.buttons (Dialog.account_entry once Examples.alice) = 4.
Proof.
  intros listed once.
  assert (WxAccount.wxid Examples.bob ≠ WxAccount.wxid Examples.alice) as Hne
    by (vm_compute; discriminate).
  split; [exact Hne|]. split; [|vm_compute; reflexivity].
  exact (proj1 (proj2 (dropdown_toggle_round_trip listed Examples.alice)) Examples.bob Hne).
Defined.

Lemma switch_account_same_count_witness :
  let clicked := apply_all (Dialog.account_click Examples.alice) Dialog.initial in
  let st := store_after (Dialog.commit Dialog.initial clicked) clicked in
  let switched := apply_all (Dialog.account_click Examples.bob) st in
  let armed := store_after (Dialog.commit st switched) switched in
  let polled :=
    store_after (Dialog.pollMessageCount (Some Examples.bob) (Dialog.messageCount armed)
                   (Fulfilled (Dialog.messageCount st))) armed in
  Dialog.selectedAccount st = Some Examples.alice ∧
  Examples.bob ≠ Examples.alice ∧
  Dialog.selectedAccount polled = Some Examples.bob ∧
  Dialog.isLoadingConversations polled = true.
Proof.
  intros clicked st switched armed polled.
  assert (Examples.bob ≠ Examples.alice) as Hne by (vm_compute; discriminate).
  destruct (switch_account_same_count st Examples.alice Examples.bob
              (Dialog.pollMessageCount_fn (Some Examples.alice) [])
              (Fulfilled (Dialog.messageCount st)) eq_refl Hne eq_refl (or_introl eq_refl))
    as (_ & _ & _ & Hsel & _ & Hload).
  split; [reflexivity|]. split; [exact Hne|]. split; [exact Hsel|exact Hload].
Defined.


Lemma account_fetch_then_selector_witness :
  Dialog.wxAccountList Dialog.initial = [] ∧
  Dialog.account_selector
    (store_after (Dialog.fetchWxAccounts (Rejected (str "Network Error"))) Dialog.initial)
  = [Dialog.empty_placeholder].
Proof.
  split; [reflexivity|].
  exact (proj1 (proj2 (account_fetch_then_selector (Fulfilled []) (str "Network Error")
                         Dialog.initial eq_refl))).
Defined.

(** ** The chat page between requests *)

Section chat_page.
Context `{Host}.

(** X11: the busy flags are released on every path.  A send whose guard
    passes ends with [isLoading] off; it turns [isSending] on when the
    request succeeded and leaves [isSending] as it was when the request
    failed, so that a send that fails while the refresh of an earlier send
    is pending leaves it on; the refresh a send scheduled turns [isSending]
    off whatever the two history requests answer; a history load ends with
    [isFetchingHistory] off. *)
Theorem busy_flags_released (p : DialogPage.props) (conv : RoomListMessage.t)
    (acc : WxAccount.t) (snap s : DialogPage.state) (now : jsstring)
    (sent : promise unit) (ai : promise jsstring) (h1 h2 : promise (list ChatMessage.t)) :
  DialogPage.conversation p = Some conv →
  DialogPage.selectedAccount p = Some acc →
  truthy (trim (DialogPage.newMessage snap)) = true →
  let after_send := store_after (DialogPage.handleSendMessage p snap now sent) s in
  let after_refresh := store_after (DialogPage.refreshMessages p h1 h2) after_send in
  DialogPage.isLoading after_send = false ∧
  DialogPage.isSending after_send
    = match sent with Fulfilled _ => true | Rejected _ => DialogPage.isSending s end ∧
  (∀ e, DialogPage.isSending
          (store_after (DialogPage.handleSendMessage p snap now (Rejected e))
             (store_after (DialogPage.handleSendMessage p snap now (Fulfilled tt)) s))
        = true) ∧
  DialogPage.isSending after_refresh = false ∧
  DialogPage.isLoading after_refresh = false ∧
  DialogPage.isFetchingHistory (store_after (DialogPage.loadMessages p ai h1 h2) s) = false.
Proof.
  intros Hc Ha Hm after_send after_refresh.
  assert (DialogPage.isLoading after_send = false) as Hload.
  { unfold after_send, DialogPage.handleSendMessage. rewrite Hc, Ha, Hm. by destruct sent. }
  split; [done|]. split; [|split; [|split; [|split]]].
  - unfold after_send, DialogPage.handleSendMessage. rewrite Hc, Ha, Hm. by destruct sent.
  - intros e. unfold DialogPage.handleSendMessage. rewrite Hc, Ha, Hm. done.
  - unfold after_refresh, DialogPage.refreshMessages, DialogPage.fetch_history.
    by destruct h1 as [d1|e1], h2 as [d2|e2].
  - unfold after_refresh, DialogPage.refreshMessages, DialogPage.fetch_history.
    by destruct h1 as [d1|e1], h2 as [d2|e2].
  - unfold DialogPage.loadMessages, DialogPage.fetch_history. rewrite Hc.
    destruct ai as [v|e]; [|done]. run_async.
    by destruct (JSON_parse v), h1 as [d1|e1], h2 as [d2|e2].
Qed.

(** X12: [handleSendMessage] never touches the message list, and a send
    that fails loses the text: the input was cleared before the request and
    is not restored, and no refresh is scheduled. *)
Theorem failed_send_drops_text (p : DialogPage.props) (conv : RoomListMessage.t)
    (acc : WxAccount.t) (snap s : DialogPage.state) (now : jsstring) (e : error) :
  DialogPage.conversation p = Some conv →
  DialogPage.selectedAccount p = Some acc →
  truthy (trim (DialogPage.newMessage snap)) = true →
  let failed := DialogPage.handleSendMessage p snap now (Rejected e) in
  DialogPage.newMessage (store_after failed s) = [] ∧
  scheduled (trace_of failed s) = [] ∧
  DialogPage.messages (store_after failed s) = DialogPage.messages s ∧
  DialogPage.messages (store_after (DialogPage.handleSendMessage p snap now (Fulfilled tt)) s)
    = DialogPage.messages s.
Proof.
  intros Hc Ha Hm failed. unfold failed, DialogPage.handleSendMessage.
  rewrite Hc, Ha, Hm. done.
Qed.

Lemma remove_all_not_elem_of (c : N) (l : jsstring) : c ∉ remove_all c l.
Proof. unfold remove_all. rewrite list_elem_of_filter. tauto. Qed.

(** X13: the run id of a manual send starts with ["manual_"] and holds no
    ["@"] when the account id and the timestamp hold none, because the room
    id enters it with every ["@"] removed; the request itself carries the
    room id unchanged. *)
Theorem dag_run_id_has_no_at (text : jsstring) (conv : RoomListMessage.t)
    (acc : WxAccount.t) (now : jsstring) :
  64%N ∉ WxAccount.wxid acc →
  64%N ∉ now →
  let body := DialogPage.send_body text conv acc now in
  (64%N ∉ SendRequest.dag_run_id body) ∧
  NavBar.startsWith (SendRequest.dag_run_id body) (str "manual_") = true ∧
  SendRequest.room_id (SendRequest.conf_ body) = RoomListMessage.room_id conv.
Proof.
  intros Hid Hnow body. split; [|split; [|done]].
  - unfold body, DialogPage.send_body. cbv zeta. cbn [SendRequest.dag_run_id].
    assert (64%N ∉ or_else (WxAccount.wxid acc) (str "unknown")) as Hsender.
    { unfold or_else. destruct (truthy (WxAccount.wxid acc)); [done|].
      apply (bool_decide_unpack _). vm_compute. exact I. }
    assert (64%N ∉ str "manual_") as Hm
      by (apply (bool_decide_unpack _); vm_compute; exact I).
    assert (64%N ∉ str "_") as Hu
      by (apply (bool_decide_unpack _); vm_compute; exact I).
    pose proof (remove_all_not_elem_of 64 (RoomListMessage.room_id conv)) as Hroom.
    rewrite !elem_of_app. tauto.
  - apply startsWith_prefix. unfold body, DialogPage.send_body. cbv zeta.
    cbn [SendRequest.dag_run_id]. eexists. reflexivity.
Qed.

(** X14: the history waits for the AI list.  When the request for the list is
    rejected, no history request is issued, and the message list, the switch
    and the stored list are as before; on a page that has loaded nothing yet
    the switch is therefore shown on over an empty stored list, and a click
    on it posts the empty list. *)
Theorem ai_list_failure_skips_history (p : DialogPage.props) (conv : RoomListMessage.t)
    (e : error) (h1 h2 : promise (list ChatMessage.t)) (s : DialogPage.state) :
  DialogPage.conversation p = Some conv →
  let load := DialogPage.loadMessages p (Rejected e) h1 h2 in
  let after := store_after load s in
  fetches (trace_of load s)
    = [getAIReplyListApi (DialogPage.name_or p []) (DialogPage.wxid_or p [])] ∧
  DialogPage.messages after = DialogPage.messages s ∧
  DialogPage.isAIEnabled after = DialogPage.isAIEnabled s ∧
  DialogPage.enabledRoomsRef after = DialogPage.enabledRoomsRef s ∧
  (DialogPage.isAIEnabled s = true → DialogPage.enabledRoomsRef s = [] →
   ∀ posted, posted_rooms (trace_of (DialogPage.onToggleAI p conv after posted) after) = [[]]).
Proof.
  intros Hc load after. unfold after, load, DialogPage.loadMessages. rewrite Hc.
  repeat split. intros Hon Hnil posted.
  unfold DialogPage.onToggleAI. run_async. rewrite Hon, Hnil. by destruct posted.
Qed.

Lemma filter_ne_all (x : jsstring) (l : list jsstring) :
  x ∉ l → filter (λ r, r ≠ x) l = l.
Proof.
  induction l as [|y l IH]; [done|]. rewrite not_elem_of_cons. intros [Hne Hnot].
  rewrite filter_cons.
  destruct (decide (y ≠ x)) as [|Hn]; [|exfalso; apply Hn; congruence]. by rewrite IH.
Qed.

Lemma updated_rooms_enable_fresh rooms rid :
  rid ∉ rooms → DialogPage.updated_rooms true rooms rid = rooms ++ [rid].
Proof.
  intros Hnot. unfold DialogPage.updated_rooms, includes.
  by rewrite bool_decide_eq_false_2.
Qed.

Lemma updated_rooms_disable_snoc rooms rid :
  rid ∉ rooms → DialogPage.updated_rooms false (rooms ++ [rid]) rid = rooms.
Proof.
  intros Hnot.
  destruct (updated_rooms_disable (rooms ++ [rid]) rid) as [Hocc Hfilter].
  cbv zeta in *.
  assert (rid ∉ DialogPage.updated_rooms false (rooms ++ [rid]) rid) as Hgone.
  { apply occurrences_zero. rewrite Hocc, occurrences_app.
    rewrite (occurrences_not_elem_of _ _ Hnot). unfold occurrences.
    rewrite filter_cons, filter_nil. by destruct (decide (rid = rid)). }
  rewrite <- (filter_ne_all rid _ Hgone), Hfilter, filter_app, (filter_ne_all rid rooms Hnot).
  rewrite filter_cons, filter_nil. destruct (decide (rid ≠ rid)); [done|].
  by rewrite app_nil_r.
Qed.

(** X15: two clicks on the switch, each followed by a successful post.
    Enabling and then disabling a room that was not in the stored list gives
    the store back as it was.  Disabling and then enabling a room that was in
    the list once keeps the same rooms and moves that room to the end. *)
Theorem toggle_twice (p : DialogPage.props) (conv : RoomListMessage.t) (s : DialogPage.state) :
  let rid := RoomListMessage.room_id conv in
  let once := store_after (DialogPage.onToggleAI p conv s (Fulfilled tt)) s in
  let twice := store_after (DialogPage.onToggleAI p conv once (Fulfilled tt)) once in
  (DialogPage.isAIEnabled s = false → rid ∉ DialogPage.enabledRoomsRef s →
   DialogPage.enabledRoomsRef once = DialogPage.enabledRoomsRef s ++ [rid] ∧
   DialogPage.isAIEnabled once = true ∧
   twice = s) ∧
  (DialogPage.isAIEnabled s = true → occurrences rid (DialogPage.enabledRoomsRef s) = 1 →
   DialogPage.enabledRoomsRef twice
     = filter (λ r, r ≠ rid) (DialogPage.enabledRoomsRef s) ++ [rid] ∧
   DialogPage.enabledRoomsRef twice ≡ₚ DialogPage.enabledRoomsRef s ∧
   DialogPage.isAIEnabled twice = true).
Proof.
  intros rid once twice. split.
  - intros Hoff Hnot.
    assert (DialogPage.enabledRoomsRef once = DialogPage.enabledRoomsRef s ++ [rid]) as Honce.
    { unfold once, DialogPage.onToggleAI. run_async. rewrite Hoff. simpl.
      by apply updated_rooms_enable_fresh. }
    assert (DialogPage.isAIEnabled once = true) as Hon
      by (unfold once, DialogPage.onToggleAI; run_async; by rewrite Hoff).
    split; [done|]. split; [done|].
    unfold twice, DialogPage.onToggleAI. run_async.
    fold once. unfold rid in *. rewrite Hon, Honce. cbn [negb].
    rewrite updated_rooms_disable_snoc by done.
    destruct s; simpl in *. by subst.
  - intros Hon Hone.
    destruct (updated_rooms_disable (DialogPage.enabledRoomsRef s) rid) as [Hocc Hfilter].
    cbv zeta in *.
    assert (rid ∉ DialogPage.updated_rooms false (DialogPage.enabledRoomsRef s) rid) as Hgone
      by (apply occurrences_zero; rewrite Hocc, Hone; done).
    assert (DialogPage.enabledRoomsRef twice
            = filter (λ r, r ≠ rid) (DialogPage.enabledRoomsRef s) ++ [rid]) as Htwice.
    { unfold twice, once, DialogPage.onToggleAI. run_async. rewrite Hon. cbn [negb].
      fold rid. rewrite updated_rooms_enable_fresh by done.
      by rewrite <- Hfilter, (filter_ne_all rid _ Hgone). }
    split; [done|]. split.
    + rewrite Htwice.
      rewrite <- (filter_app_complement (λ r, r = rid) (DialogPage.enabledRoomsRef s)) at 2.
      rewrite Permutation_app_comm. apply Permutation_app; [|done].
      unfold occurrences in Hone.
      destruct (filter (λ r, r = rid) (DialogPage.enabledRoomsRef s)) as [|x [|y l]] eqn:Hf;
        simpl in Hone; try lia.
      assert (x ∈ filter (λ r, r = rid) (DialogPage.enabledRoomsRef s)) as Hx
        by (rewrite Hf; apply list_elem_of_here).
      apply list_elem_of_filter in Hx as [-> _]. done.
    + unfold twice, once, DialogPage.onToggleAI. run_async. by rewrite Hon.
Qed.

End chat_page.

Lemma busy_flags_released_witness :
  let after_send :=
    store_after (DialogPage.handleSendMessage Examples.page_props Examples.typing
                   (str "2024-01-03T00:00:00.000Z") (Fulfilled tt)) Examples.typing in
  truthy (trim (DialogPage.newMessage Examples.typing)) = true ∧
  DialogPage.isSending after_send = true ∧
  DialogPage.isSending
    (store_after (@DialogPage.refreshMessages Examples.host Examples.page_props
                    (Rejected (str "Network Error")) (Fulfilled [])) after_send) = false.
Proof.
  intros after_send.
  assert (truthy (trim (DialogPage.newMessage Examples.typing)) = true) as Hm
    by (vm_compute; reflexivity).
  destruct (@busy_flags_released Examples.host Examples.page_props
              (Examples.conversation_at Examples.room1 Examples.jan1) Examples.alice
              Examples.typing Examples.typing (str "2024-01-03T00:00:00.000Z")
              (Fulfilled tt) (Rejected (str "Network Error"))
              (Rejected (str "Network Error")) (Fulfilled []) eq_refl eq_refl Hm)
    as (_ & Hsending & _ & Hrefreshed & _).
  split; [exact Hm|]. split; [exact Hsending|exact Hrefreshed].
Defined.

Lemma failed_send_drops_text_witness :
  let failed :=
    DialogPage.handleSendMessage Examples.page_props Examples.typing
      (str "2024-01-03T00:00:00.000Z") (Rejected (str "Network Error")) in
  DialogPage.newMessage Examples.typing = str "hi" ∧
  truthy (trim (DialogPage.newMessage Examples.typing)) = true ∧
  DialogPage.newMessage (store_after failed Examples.typing) = [].
Proof.
  intros failed.
  assert (truthy (trim (DialogPage.newMessage Examples.typing)) = true) as Hm
    by (vm_compute; reflexivity).
  split; [reflexivity|]. split; [exact Hm|].
  exact (proj1 (failed_send_drops_text Examples.page_props
                  (Examples.conversation_at Examples.room1 Examples.jan1) Examples.alice
                  Examples.typing Examples.typing (str "2024-01-03T00:00:00.000Z")
                  (str "Network Error") eq_refl eq_refl Hm)).
Defined.

Lemma dag_run_id_has_no_at_witness :
  let now := str "2024-01-03T00:00:00.000Z" in
  let body :=
    DialogPage.send_body (str "hi") (Examples.conversation_at Examples.room1 Examples.jan1)
      Examples.alice now in
  (64%N ∉ WxAccount.wxid Examples.alice) ∧ (64%N ∉ now) ∧
  SendRequest.dag_run_id body
    = str "manual_wxid_alice_room1chatroom_2024-01-03T00:00:00.000Z" ∧
  (64%N ∉ SendRequest.dag_run_id body).
Proof.
  intros now body.
  assert (64%N ∉ WxAccount.wxid Examples.alice) as Hid
    by (apply (bool_decide_unpack _); vm_compute; exact I).
  assert (64%N ∉ now) as Hnow
    by (apply (bool_decide_unpack _); vm_compute; exact I).
  split; [exact Hid|]. split; [exact Hnow|]. split; [vm_compute; reflexivity|].
  exact (proj1 (dag_run_id_has_no_at (str "hi")
                  (Examples.conversation_at Examples.room1 Examples.jan1)
                  Examples.alice now Hid Hnow)).
Defined.

Lemma ai_list_failure_skips_history_witness :
  let load :=
    @DialogPage.loadMessages Examples.host Examples.page_props
      (Rejected (str "Network Error")) (Fulfilled []) (Fulfilled []) in
  let after := store_after load DialogPage.initial in
  DialogPage.isAIEnabled after = true ∧
  DialogPage.enabledRoomsRef after = [] ∧
  posted_rooms
    (trace_of (DialogPage.onToggleAI Examples.page_props
                 (Examples.conversation_at Examples.room1 Examples.jan1) after (Fulfilled tt))
       after) = [[]].
Proof.
  intros load after.
  destruct (@ai_list_failure_skips_history Examples.host Examples.page_props
              (Examples.conversation_at Examples.room1 Examples.jan1)
              (str "Network Error") (Fulfilled []) (Fulfilled []) DialogPage.initial eq_refl)
    as (_ & _ & Hon & Href & Hclick).
  split; [exact Hon|]. split; [exact Href|].
  exact (Hclick eq_refl eq_refl (Fulfilled tt)).
Defined.

Lemma toggle_twice_witness :
  let conv := Examples.conversation_at Examples.room1 Examples.jan1 in
  let cleared :=
    store_after (@DialogPage.loadMessages Examples.host Examples.page_props
                   (Fulfilled (Examples.stringify [])) (Fulfilled [])
                   (Fulfilled [])) DialogPage.initial in
  let once := store_after (DialogPage.onToggleAI Examples.page_props conv cleared (Fulfilled tt))
                cleared in
  DialogPage.isAIEnabled cleared = false ∧
  (Examples.room1 ∉ DialogPage.enabledRoomsRef cleared) ∧
  store_after (DialogPage.onToggleAI Examples.page_props conv once (Fulfilled tt)) once
    = cleared.
Proof.
  intros conv cleared once.
  assert (Examples.room1 ∉ DialogPage.enabledRoomsRef cleared) as Hnot
    by (apply (bool_decide_unpack _); vm_compute; exact I).
  split; [reflexivity|]. split; [exact Hnot|].
  exact (proj2 (proj2 (proj1 (@toggle_twice Examples.page_props conv cleared)
                         eq_refl Hnot))).
Defined.

(** ** The route table and the prompt *)

Section routes_and_prompt.

Ltac route_cases H :=
  repeat (apply elem_of_cons in H as [H|H]; [injection H as -> ->|]);
    [..|by apply elem_of_nil in H].

Ltac route_clash :=
  repeat match goal with
         | H : (if decide ?P then _ else _) = Some _ |- _ =>
             destruct (decide P); [|discriminate H]
         | H : (if truthy ?x then _ else _) = Some _ |- _ =>
             destruct (truthy x); [|discriminate H]
         end;
  try discriminate;
  match goal with
  | e1 : ?a = fmap App.lower ?x, e2 : ?b = fmap App.lower ?x |- _ =>
      rewrite <- e2 in e1; vm_compute in e1; discriminate e1
  end.

(** X16: the routes under the protected route do not overlap: a path is
    matched by at most one pattern of the table, so the page shown does not
    depend on the order in which the routes are tried. *)
Theorem routes_do_not_overlap (path : list jsstring)
    (pattern1 pattern2 : list App.segment) (target1 target2 : App.page)
    (params1 params2 : gmap jsstring jsstring) :
  (pattern1, target1) ∈ App.routes →
  (pattern2, target2) ∈ App.routes →
  App.match_segments pattern1 path = Some params1 →
  App.match_segments pattern2 path = Some params2 →
  pattern1 = pattern2 ∧ target1 = target2 ∧ params1 = params2.
Proof.
  intros H1 H2 M1 M2. unfold App.routes in H1, H2.
  route_cases H1; route_cases H2;
    try (split; [done|split; [done|congruence]]);
    exfalso;
    destruct path as [|s1 [|s2 [|s3 [|s4 l]]]];
    cbn [App.match_segments mbind option_bind] in M1, M2;
    try discriminate; route_clash.
Qed.

(** X17: fetching the prompt never clears it.  After [fetchPrompt] the
    prompt is what it was, or the non-empty value the request returned for
    the account of the navigation state; without that account nothing is
    requested. *)
Theorem fetchPrompt_never_clears (wxAccount : option WxAccount.t)
    (r : promise (option jsstring)) (s : EmployeeEdit.state) :
  let s' := store_after (EmployeeEdit.fetchPrompt wxAccount r) s in
  (EmployeeEdit.prompt s' = EmployeeEdit.prompt s ∨
   ∃ acc value, wxAccount = Some acc ∧ r = Fulfilled (Some value) ∧ value ≠ [] ∧
                EmployeeEdit.prompt s' = value) ∧
  (EmployeeEdit.prompt s ≠ [] → EmployeeEdit.prompt s' ≠ []) ∧
  (wxAccount = None → trace_of (EmployeeEdit.fetchPrompt wxAccount r) s = []).
Proof.
  intros s'. unfold s', EmployeeEdit.fetchPrompt.
  destruct wxAccount as [acc|]; [|by repeat split; auto].
  destruct r as [[[|c v]|]|e]; run_async; repeat split; auto; try done.
  right. by exists acc, (c :: v).
Qed.

End routes_and_prompt.

Lemma routes_do_not_overlap_witness :
  let path := [str "employee"; str "edit"; str "alice"] in
  let pattern := [App.Static (str "employee"); App.Static (str "edit"); App.Dynamic (str "name")] in
  (pattern, App.EmployeeEdit) ∈ App.routes ∧
  App.match_segments pattern path = Some (<[str "name" := str "alice"]> ∅) ∧
  ∀ pattern2 target2 params2,
    (pattern2, target2) ∈ App.routes →
    App.match_segments pattern2 path = Some params2 → target2 = App.EmployeeEdit.
Proof.
  intros path pattern.
  assert ((pattern, App.EmployeeEdit) ∈ App.routes) as Hin by (unfold App.routes; solve_elem_of).
  assert (App.match_segments pattern path = Some (<[str "name" := str "alice"]> ∅)) as Hm
    by (vm_compute; reflexivity).
  split; [exact Hin|]. split; [exact Hm|].
  intros pattern2 target2 params2 H2 M2.
  exact (eq_sym (proj1 (proj2
    (routes_do_not_overlap path pattern pattern2 App.EmployeeEdit target2 _ params2
       Hin H2 Hm M2)))).
Defined.

Section nav_bar_view.

Lemma highlighted_by_name (s : NavBar.state) (item : NavBar.NavItem) :
  item ∈ NavBar.navItems → NavBar.selected s = NavBar.name item →
  NavBar.highlighted s = [item].
Proof.
  intros Hin Hsel. unfold NavBar.highlighted. rewrite Hsel.
  nav_cases Hin; vm_compute; reflexivity.
Qed.

Lemma findSelectedNavItem_in_table (path : jsstring) :
  ∃ item, item ∈ NavBar.navItems ∧ NavBar.findSelectedNavItem path = NavBar.name item.
Proof.
  unfold NavBar.findSelectedNavItem. cbv zeta.
  destruct (findSelectedNavItem_cases (NavBar.currentPath path)) as [Hd|(item & Hin & _ & Hn)];
    cbv zeta in *.
  - eexists. split; [apply list_elem_of_here|]. by rewrite Hd.
  - by exists item.
Qed.

(** X18: exactly one navigation item is highlighted.  The keys of the
    rendered items are pairwise distinct, and on the first render, after the
    location effect, and after a click on an item, the items drawn
    highlighted are one item of the table; after a click it is the item
    clicked. *)
Theorem one_item_highlighted (path : jsstring) (s : NavBar.state) :
  NoDup NavBar.item_keys ∧
  length (NavBar.highlighted (NavBar.initial path)) = 1 ∧
  length (NavBar.highlighted (store_after (NavBar.location_effect s) s)) = 1 ∧
  (∀ item, item ∈ NavBar.navItems →
     NavBar.highlighted
       (store_after (NavBar.handleClick (NavBar.name item) (NavBar.url item)) s) = [item]).
Proof.
  split; [|split; [|split]].
  - apply (bool_decide_unpack _). vm_compute. exact I.
  - destruct (findSelectedNavItem_in_table path) as (item & Hin & Hn).
    by rewrite (highlighted_by_name _ item).
  - destruct (findSelectedNavItem_in_table (NavBar.pathname s)) as (item & Hin & Hn).
    by rewrite (highlighted_by_name _ item).
  - intros item Hin. by apply highlighted_by_name.
Qed.

(** X19: signing out leaves the console only when it succeeds.  After a
    fulfilled [logoutUser] the location is ["/login"], which the outer route
    table shows as the login page; after a rejected one the error is logged
    and the location, and everything else in the store, is as before. *)
Theorem handleLogout_navigates_on_success (e : error) (s : NavBar.state) :
  let left := store_after (NavBar.handleLogout (Fulfilled tt)) s in
  let stayed := NavBar.handleLogout (Rejected e) in
  NavBar.pathname left = str "/login" ∧
  App.navigate (NavBar.pathname left) = Some (App.Login, ∅) ∧
  store_after stayed s = s ∧
  result_of stayed s = Normal tt ∧
  length (errors_logged (trace_of stayed s)) = 1.
Proof. intros left stayed. repeat split; try (vm_compute; reflexivity). Qed.

End nav_bar_view.

Lemma one_item_highlighted_witness :
  let employee := NavBar.mkNavItem [0x5458; 0x5DE5]%N NavBar.employeeSVG (str "/employee") in
  employee ∈ NavBar.navItems ∧
  NavBar.highlighted
    (store_after (NavBar.handleClick (NavBar.name employee) (NavBar.url employee))
       (NavBar.initial (str "/dialog"))) = [employee].
Proof.
  intros employee.
  assert (employee ∈ NavBar.navItems) as Hin by solve_elem_of.
  split; [exact Hin|].
  exact (proj2 (proj2 (proj2 (one_item_highlighted [] (NavBar.initial (str "/dialog"))))) employee Hin).
Defined.

Lemma fetchPrompt_never_clears_witness :
  let kept := apply (EmployeeEdit.setPrompt (str "Be brief.")) EmployeeEdit.initial in
  let s' :=
    store_after (EmployeeEdit.fetchPrompt (Some Examples.alice) (Fulfilled (Some []))) kept in
  EmployeeEdit.prompt kept ≠ [] ∧ EmployeeEdit.prompt s' ≠ [].
Proof.
  intros kept s'.
  assert (EmployeeEdit.prompt kept ≠ []) as Hkept by (vm_compute; discriminate).
  split; [exact Hkept|].
  exact (proj1 (proj2 (fetchPrompt_never_clears (Some Examples.alice)
                         (Fulfilled (Some [])) kept)) Hkept).
Defined.
